(** * Progress and certificate bookkeeping of the desktop LMS

    Shallow embedding of [src/src/main/database/database.ts]
    ([DatabaseManager]) over the SQLite schema of [schema.sql]
    (src/unnamed/part_005): the tables are lists of rows, every store call
    ([get], [query], [run]) is one step of a state-and-error monad, and the
    JavaScript number arithmetic used by the aggregate and the certificate
    threshold is modelled as IEEE binary64 round-to-nearest-even. *)

From Stdlib Require Import ZArith Bool List String Ascii Lia.
From Stdlib Require Import Floats.
Import ListNotations.
Open Scope Z_scope.

(** ** JavaScript numbers (binary64) on non-negative operands

    Every number this code computes with is a row count, a lesson count or
    a constant; they are non-negative and far below [2^53], so no value is
    subnormal and none overflows. A double is then [mant * 2^expo]. *)

Module Num.

Record dbl := mk_dbl { mant : Z; expo : Z }.

(** numerator / denominator of a double *)
Definition frac (x : dbl) : Z * Z :=
  if 0 <=? expo x then (mant x * 2 ^ expo x, 1)
  else (mant x, 2 ^ (- expo x)).

(** integer division rounded to nearest, ties to even *)
Definition rne (n d : Z) : Z :=
  let q := n / d in
  let r := n mod d in
  if 2 * r <? d then q
  else if d <? 2 * r then q + 1
  else if Z.even q then q else q + 1.

Definition num_at (a e : Z) : Z := if e <=? 0 then a * 2 ^ (- e) else a.
Definition den_at (b e : Z) : Z := if e <=? 0 then b else b * 2 ^ e.

(** exponent that puts [a/b] in [2^52, 2^53) *)
Definition exp_of (a b : Z) : Z :=
  let e0 := Z.log2 a - Z.log2 b - 52 in
  if num_at a e0 <? 2 ^ 52 * den_at b e0 then e0 - 1 else e0.

(** the double nearest to the rational [a/b] ([a >= 0], [b > 0]) *)
Definition round_q (a b : Z) : dbl :=
  if a =? 0 then mk_dbl 0 0
  else let e := exp_of a b in mk_dbl (rne (num_at a e) (den_at b e)) e.

Definition of_Z (n : Z) : dbl := round_q n 1.

(** [x / y] and [x * y] *)
Definition fdiv (x y : dbl) : dbl :=
  let (a1, b1) := frac x in let (a2, b2) := frac y in round_q (a1 * b2) (b1 * a2).
Definition fmul (x y : dbl) : dbl :=
  let (a1, b1) := frac x in let (a2, b2) := frac y in round_q (a1 * a2) (b1 * b2).

(** [Math.round x]: the integer nearest to [x], ties towards +infinity *)
Definition math_round (x : dbl) : Z :=
  let (a, b) := frac x in (2 * a + b) / (2 * b).

(** [k < x] for an integer [k] *)
Definition lt_Z (k : Z) (x : dbl) : bool :=
  let (a, b) := frac x in k * b <? a.

(** the literal [0.8] *)
Definition lit_0_8 : dbl := round_q 4 5.

(** Cross-check of the model against the kernel's primitive binary64
    arithmetic: [value_eq] compares a model double with a primitive one. *)
Definition value_eq (x : dbl) (f : PrimFloat.float) : bool :=
  let (a, b) := frac x in
  match FloatOps.Prim2SF f with
  | SpecFloat.S754_zero _ => a =? 0
  | SpecFloat.S754_finite false m e =>
      if 0 <=? e then a =? Z.pos m * 2 ^ e * b else a * 2 ^ (- e) =? Z.pos m * b
  | _ => false
  end.

Definition prim_of_Z (n : Z) : PrimFloat.float := PrimFloat.of_uint63 (Uint63.of_Z n).

Fixpoint all_below (n : nat) (p : Z -> bool) : bool :=
  match n with
  | O => true
  | S k => p (Z.of_nat k) && all_below k p
  end.

(** [(c / t) * 100] agrees with binary64 for all [0 <= c <= t <= 120] *)
Definition pct_agrees : bool :=
  all_below 121 (fun t =>
    (t =? 0) ||
    all_below (Z.to_nat t + 1) (fun c =>
      value_eq (fmul (fdiv (of_Z c) (of_Z t)) (of_Z 100))
        (PrimFloat.mul (PrimFloat.div (prim_of_Z c) (prim_of_Z t)) (prim_of_Z 100)))).

(** [n * 0.8] agrees with binary64 for all [n <= 2000] (the primitive
    literal is the double nearest to 0.8) *)
Definition threshold_agrees : bool :=
  all_below 2001 (fun n =>
    value_eq (fmul (of_Z n) lit_0_8)
      (PrimFloat.mul (prim_of_Z n) 0x1.999999999999ap-1%float)).

End Num.

(** ** Strings *)

Module Str.

(** decimal rendering of a number in a template literal *)
Fixpoint digits_aux (fuel : nat) (n : N) (acc : string) : string :=
  match fuel with
  | O => acc
  | S f =>
      let acc' := String (ascii_of_N (48 + N.modulo n 10)) acc in
      if N.ltb n 10 then acc' else digits_aux f (N.div n 10) acc'
  end.

Definition digits (n : N) : string :=
  digits_aux (S (match n with N0 => O | Npos p => Pos.size_nat p end)) n EmptyString.

Definition of_Z (z : Z) : string :=
  if z <? 0 then String "-" (digits (Z.to_N (- z))) else digits (Z.to_N z).

(** ASCII case folding, as SQLite's LIKE does by default *)
Definition lower (c : ascii) : ascii :=
  let n := nat_of_ascii c in
  if (65 <=? n)%nat && (n <=? 90)%nat then ascii_of_nat (n + 32) else c.

Fixpoint lower_string (s : string) : string :=
  match s with
  | EmptyString => EmptyString
  | String c s' => String (lower c) (lower_string s')
  end.

(** [s LIKE "<p>%"] for a pattern prefix [p] free of wildcards *)
Definition like_prefix (p s : string) : bool :=
  String.prefix (lower_string p) (lower_string s).

End Str.


(** ** Data model: rows of the five tables of [schema.sql] *)

Module Db.

(** The content document of a module, as [JSON.parse] returns it: only the
    fields this code reads. A missing [lessons] or [quizzes] field is [None]. *)
Record Lesson := mkLesson { lesson_key : string; lesson_title : string }.
Record Quiz := mkQuiz {
  quiz_key : string;
  afterLessonId : option string;
  passingScore : Z }.
Record ModuleContent := mkContent {
  lessons : option (list Lesson);
  quizzes : option (list Quiz) }.

(** the TEXT column [modules.content]: empty, valid JSON, or text on which
    [JSON.parse] (or the field access after it) throws *)
Inductive ContentDoc :=
| DocEmpty
| DocJson (c : ModuleContent)
| DocMalformed.

Record ModuleRow := mkModule { mod_id : Z; title : string; content : ContentDoc }.
Record UserRow := mkUser { user_id : Z; username : string }.

(** [user_progress]: one row per (user, module) *)
Record UserProgress := mkUP {
  up_user : Z;
  up_module : Z;
  progress_percentage : Z;
  up_completed : bool;
  started_at : option Z;
  completion_date : option Z;
  total_time_spent : Z;
  last_accessed : Z }.

(** [lesson_progress]: one row per (user, module, lesson-or-quiz id) *)
Record LessonProgress := mkLP {
  lp_user : Z;
  lp_module : Z;
  lesson_id : string;
  lp_completed : bool;
  time_spent : Z;
  quiz_score : option Z;
  completed_at : option Z;
  lp_updated_at : Z }.

(** the JSON snapshot stored in [certificates.certificate_data] *)
Record CertificateData := mkCertData {
  cd_user : string;
  cd_module : string;
  cd_completionDate : Z;
  cd_timeSpent : Z }.

Record Certificate := mkCert {
  cert_id : Z;
  cert_user : Z;
  cert_module : Z;
  certificate_code : string;
  certificate_data : CertificateData;
  issued_at : Z }.

(** The database file, plus the number of store calls made so far (used to
    say which calls fail). *)
Record DB := mkDB {
  users : list UserRow;
  modules : list ModuleRow;
  user_progress : list UserProgress;
  lesson_progress : list LessonProgress;
  certificates : list Certificate;
  next_cert_id : Z;
  tick : nat }.

Definition set_user_progress (s : DB) (t : list UserProgress) : DB :=
  mkDB (users s) (modules s) t (lesson_progress s) (certificates s) (next_cert_id s) (tick s).
Definition set_lesson_progress (s : DB) (t : list LessonProgress) : DB :=
  mkDB (users s) (modules s) (user_progress s) t (certificates s) (next_cert_id s) (tick s).
Definition set_certificates (s : DB) (t : list Certificate) (next : Z) : DB :=
  mkDB (users s) (modules s) (user_progress s) (lesson_progress s) t next (tick s).
Definition bump (s : DB) : DB :=
  mkDB (users s) (modules s) (user_progress s) (lesson_progress s) (certificates s)
    (next_cert_id s) (S (tick s)).

(** ** Errors and the result envelope *)

(** what a rejected promise carries *)
Inductive Exn :=
| StoreError          (* an sqlite error other than a constraint *)
| ConstraintUnique    (* SQLITE_CONSTRAINT: UNIQUE constraint failed *)
| ParseError.         (* JSON.parse (or a field read after it) threw *)

Inductive Result (A : Type) := Ok (a : A) | Err (e : Exn).
Arguments Ok {A} a.
Arguments Err {A} e.

(** the [error] strings of [ApiResponse] *)
Inductive ApiError :=
| ModuleOrUserNotFound                (* 'Module or user not found' *)
| NotSufficientlyCompleted            (* 'Module not sufficiently completed' *)
| FailedToRetrieveProgress            (* 'Failed to retrieve updated progress' *)
| FailedToRetrieveCertificate         (* 'Failed to retrieve generated certificate' *)
| FailedToUpdateProgress (e : Exn)    (* `Failed to update progress: ${error}` *)
| FailedToResetProgress (e : Exn)     (* `Failed to reset progress: ${error}` *)
| FailedToGenerateCertificate (e : Exn). (* `Failed to generate certificate: ${error}` *)

Inductive ApiResponse (A : Type) := ApiOk (data : A) | ApiErr (error : ApiError).
Arguments ApiOk {A} data.
Arguments ApiErr {A} error.

(** ** The async code as a state-and-error monad *)

Definition M (A : Type) : Type := DB -> Result A * DB.

Definition ret {A} (a : A) : M A := fun s => (Ok a, s).
Definition throw {A} (e : Exn) : M A := fun s => (Err e, s).
Definition bind {A B} (m : M A) (k : A -> M B) : M B :=
  fun s => match m s with
           | (Ok a, s') => k a s'
           | (Err e, s') => (Err e, s')
           end.
(** [try { m } catch (error) { h(error) }] *)
Definition catch {A} (m : M A) (h : Exn -> M A) : M A :=
  fun s => match m s with
           | (Ok a, s') => (Ok a, s')
           | (Err e, s') => h e s'
           end.

Notation "x <- m ;; k" := (bind m (fun x => k))
  (at level 61, m at next level, right associativity).
Notation "m ;;; k" := (bind m (fun _ => k))
  (at level 61, right associativity).

Section Store.

(** [fault n] says that the [n]-th store call of the run fails with an
    sqlite error; a failing call changes nothing. *)
Variable fault : nat -> bool.

Definition store {A} (op : DB -> Result A * DB) : M A :=
  fun s => let s1 := bump s in
           if fault (tick s) then (Err StoreError, s1) else op s1.

Definition is_pair (u m u' m' : Z) : bool := (u =? u') && (m =? m').

Definition up_of (u m : Z) (r : UserProgress) : bool := is_pair u m (up_user r) (up_module r).
Definition lp_of (u m : Z) (r : LessonProgress) : bool := is_pair u m (lp_user r) (lp_module r).
Definition lp_key (u m : Z) (l : string) (r : LessonProgress) : bool :=
  lp_of u m r && String.eqb l (lesson_id r).

(** 'SELECT * FROM user_progress WHERE user_id = ? AND module_id = ?' *)
Definition get_user_progress (u m : Z) : M (option UserProgress) :=
  store (fun s => (Ok (find (up_of u m) (user_progress s)), s)).

(** 'INSERT INTO user_progress (user_id, module_id, started_at, last_accessed)
    VALUES (?, ?, ?, ?)'; the other columns take their defaults *)
Definition insert_user_progress (u m started last : Z) : M unit :=
  store (fun s =>
    if existsb (up_of u m) (user_progress s) then (Err ConstraintUnique, s)
    else (Ok tt, set_user_progress s
                   (user_progress s ++ [mkUP u m 0 false (Some started) None 0 last]))).

(** an UPDATE of the rows of one (user, module) pair *)
Definition update_rows_of (u m : Z) (f : UserProgress -> UserProgress)
    (t : list UserProgress) : list UserProgress :=
  map (fun r => if up_of u m r then f r else r) t.

Definition set_last_accessed (now : Z) (r : UserProgress) : UserProgress :=
  mkUP (up_user r) (up_module r) (progress_percentage r) (up_completed r)
    (started_at r) (completion_date r) (total_time_spent r) now.

Definition set_aggregate (pct : Z) (done : bool) (date : option Z) (r : UserProgress)
  : UserProgress :=
  mkUP (up_user r) (up_module r) pct done (started_at r) date (total_time_spent r)
    (last_accessed r).

(** 'UPDATE user_progress SET last_accessed = ? WHERE ...' *)
Definition touch_user_progress (u m now : Z) : M unit :=
  store (fun s =>
    (Ok tt, set_user_progress s (update_rows_of u m (set_last_accessed now) (user_progress s)))).

(** 'UPDATE user_progress SET progress_percentage = ?, completed = ?,
    completion_date = ? WHERE ...' *)
Definition update_aggregate (u m pct : Z) (done : bool) (date : option Z) : M unit :=
  store (fun s =>
    (Ok tt, set_user_progress s
              (update_rows_of u m (set_aggregate pct done date) (user_progress s)))).

(** 'DELETE FROM user_progress WHERE user_id = ? AND module_id = ?' *)
Definition delete_user_progress (u m : Z) : M unit :=
  store (fun s =>
    (Ok tt, set_user_progress s (filter (fun r => negb (up_of u m r)) (user_progress s)))).

(** 'SELECT * FROM lesson_progress WHERE user_id = ? AND module_id = ? AND lesson_id = ?' *)
Definition get_lesson_progress (u m : Z) (l : string) : M (option LessonProgress) :=
  store (fun s => (Ok (find (lp_key u m l) (lesson_progress s)), s)).

(** 'UPDATE lesson_progress SET completed = ?, time_spent = ?, quiz_score = ?,
    updated_at = CURRENT_TIMESTAMP, completed_at = ? WHERE ...' *)
Definition update_lesson_progress (u m : Z) (l : string) (c : bool) (t : Z)
    (q : option Z) (cat : option Z) (now : Z) : M unit :=
  store (fun s =>
    (Ok tt, set_lesson_progress s (map (fun r =>
       if lp_key u m l r then mkLP (lp_user r) (lp_module r) (lesson_id r) c t q cat now
       else r) (lesson_progress s)))).

(** 'INSERT INTO lesson_progress (user_id, module_id, lesson_id, completed,
    time_spent, quiz_score, completed_at) VALUES (...)' *)
Definition insert_lesson_progress (u m : Z) (l : string) (c : bool) (t : Z)
    (q : option Z) (cat : option Z) (now : Z) : M unit :=
  store (fun s =>
    if existsb (lp_key u m l) (lesson_progress s) then (Err ConstraintUnique, s)
    else (Ok tt, set_lesson_progress s (lesson_progress s ++ [mkLP u m l c t q cat now]))).

(** 'SELECT * FROM lesson_progress WHERE user_id = ? AND module_id = ?' *)
Definition query_lesson_progress (u m : Z) : M (list LessonProgress) :=
  store (fun s => (Ok (filter (lp_of u m) (lesson_progress s)), s)).

(** 'SELECT * FROM lesson_progress WHERE user_id = ? AND module_id = ? AND completed = 1' *)
Definition query_completed (u m : Z) : M (list LessonProgress) :=
  store (fun s => (Ok (filter (fun r => lp_of u m r && lp_completed r) (lesson_progress s)), s)).

(** 'SELECT COUNT( * ) ... AND completed = 1 AND lesson_id LIKE "lesson-%"' *)
Definition completed_lessons_in (u m : Z) (t : list LessonProgress) : Z :=
  Z.of_nat (List.length (filter (fun r =>
    lp_of u m r && lp_completed r && Str.like_prefix "lesson-" (lesson_id r)) t)).

Definition count_completed_lessons (u m : Z) : M Z :=
  store (fun s => (Ok (completed_lessons_in u m (lesson_progress s)), s)).

(** 'SELECT COUNT( * ) ... AND completed = 1 AND lesson_id LIKE "quiz-%"
    AND quiz_score IS NOT NULL' *)
Definition completed_quizzes_in (u m : Z) (t : list LessonProgress) : Z :=
  Z.of_nat (List.length (filter (fun r =>
    lp_of u m r && lp_completed r && Str.like_prefix "quiz-" (lesson_id r)
    && match quiz_score r with Some _ => true | None => false end) t)).

Definition count_completed_quizzes (u m : Z) : M Z :=
  store (fun s => (Ok (completed_quizzes_in u m (lesson_progress s)), s)).

(** 'DELETE FROM lesson_progress WHERE user_id = ? AND module_id = ?';
    returns [changes] *)
Definition delete_lesson_progress (u m : Z) : M Z :=
  store (fun s =>
    (Ok (Z.of_nat (List.length (filter (lp_of u m) (lesson_progress s)))),
     set_lesson_progress s (filter (fun r => negb (lp_of u m r)) (lesson_progress s)))).

(** 'SELECT * FROM modules WHERE id = ?' and 'SELECT * FROM users WHERE id = ?' *)
Definition get_module (m : Z) : M (option ModuleRow) :=
  store (fun s => (Ok (find (fun r => mod_id r =? m) (modules s)), s)).
Definition get_user (u : Z) : M (option UserRow) :=
  store (fun s => (Ok (find (fun r => user_id r =? u) (users s)), s)).

(** 'INSERT INTO certificates (user_id, module_id, certificate_code,
    certificate_data) VALUES (?, ?, ?, ?)': UNIQUE (user_id, module_id) and
    UNIQUE certificate_code; returns [lastID] *)
Definition insert_certificate (u m : Z) (code : string) (d : CertificateData) (now : Z)
  : M Z :=
  store (fun s =>
    if existsb (fun c => is_pair u m (cert_user c) (cert_module c)
                         || String.eqb code (certificate_code c)) (certificates s)
    then (Err ConstraintUnique, s)
    else let id := next_cert_id s in
         (Ok id, set_certificates s (certificates s ++ [mkCert id u m code d now]) (id + 1))).

(** 'SELECT * FROM certificates WHERE id = ?' *)
Definition get_certificate_by_id (id : Z) : M (option Certificate) :=
  store (fun s => (Ok (find (fun c => cert_id c =? id) (certificates s)), s)).

(** 'SELECT * FROM certificates WHERE certificate_code = ?' *)
Definition get_certificate_by_code (code : string) : M (option Certificate) :=
  store (fun s => (Ok (find (fun c => String.eqb code (certificate_code c)) (certificates s)), s)).

End Store.

End Db.

(** ** The operations of [DatabaseManager] *)

Module DatabaseManager.
Import Db.

Section Ops.

Variable fault : nat -> bool.

(** [module.content ? JSON.parse(module.content) : { lessons: [], quizzes: [] }] *)
Definition parse_doc (d : ContentDoc) : Result ModuleContent :=
  match d with
  | DocEmpty => Ok (mkContent (Some []) (Some []))
  | DocJson c => Ok c
  | DocMalformed => Err ParseError
  end.

Definition parse_content (d : ContentDoc) : M ModuleContent := fun s => (parse_doc d, s).

(** [parsedContent.lessons?.length || 0] and [parsedContent.quizzes?.length || 0] *)
Definition total_lessons (c : ModuleContent) : Z :=
  match lessons c with Some l => Z.of_nat (List.length l) | None => 0 end.
Definition total_quizzes (c : ModuleContent) : Z :=
  match quizzes c with Some q => Z.of_nat (List.length q) | None => 0 end.

(** [Math.round((totalCompleted / totalItems) * 100)] *)
Definition progress_of (totalCompleted totalItems : Z) : Z :=
  Num.math_round
    (Num.fmul (Num.fdiv (Num.of_Z totalCompleted) (Num.of_Z totalItems)) (Num.of_Z 100)).

(** the body of the [try] of [updateModuleCompletionStatus] *)
Definition updateModuleCompletionStatus_body (userId moduleId now : Z) : M unit :=
  module <- get_module fault moduleId ;;
  match module with
  | None => ret tt
  | Some mr =>
      parsedContent <- parse_content (content mr) ;;
      let totalLessons := total_lessons parsedContent in
      let totalQuizzes := total_quizzes parsedContent in
      let totalItems := totalLessons + totalQuizzes in
      if totalItems =? 0 then ret tt else
      completedLessons <- count_completed_lessons fault userId moduleId ;;
      completedQuizzes <- count_completed_quizzes fault userId moduleId ;;
      let totalCompleted := completedLessons + completedQuizzes in
      let progressPercentage := progress_of totalCompleted totalItems in
      let isCompleted := (totalLessons <=? completedLessons) && (totalQuizzes <=? completedQuizzes) in
      currentProgress <- get_user_progress fault userId moduleId ;;
      match currentProgress with
      | None => ret tt
      | Some cur =>
          let wasAlreadyCompleted := up_completed cur in
          let completionDate :=
            if isCompleted && negb wasAlreadyCompleted then Some now
            else completion_date cur in
          update_aggregate fault userId moduleId progressPercentage isCompleted completionDate
      end
  end.

(** The write that [updateModuleCompletionStatus_body] makes on a database
    where no store call fails, as a function of the tables: [None] for no
    write, [Some (progress_percentage, completed, completion_date)]. *)
Definition recompute_plan (userId moduleId now : Z) (s : DB)
  : Result (option (Z * bool * option Z)) :=
  match find (fun r => mod_id r =? moduleId) (modules s) with
  | None => Ok None
  | Some mr =>
      match parse_doc (content mr) with
      | Err e => Err e
      | Ok pc =>
          let totalLessons := total_lessons pc in
          let totalQuizzes := total_quizzes pc in
          let totalItems := totalLessons + totalQuizzes in
          if totalItems =? 0 then Ok None else
          let completedLessons := completed_lessons_in userId moduleId (lesson_progress s) in
          let completedQuizzes := completed_quizzes_in userId moduleId (lesson_progress s) in
          let isCompleted :=
            (totalLessons <=? completedLessons) && (totalQuizzes <=? completedQuizzes) in
          match find (up_of userId moduleId) (user_progress s) with
          | None => Ok None
          | Some cur =>
              Ok (Some (progress_of (completedLessons + completedQuizzes) totalItems,
                        isCompleted,
                        if isCompleted && negb (up_completed cur) then Some now
                        else completion_date cur))
          end
      end
  end.

Definition apply_plan (userId moduleId : Z) (w : option (Z * bool * option Z))
    (t : list UserProgress) : list UserProgress :=
  match w with
  | None => t
  | Some (pct, done, date) => update_rows_of userId moduleId (set_aggregate pct done date) t
  end.

(** errors are logged and swallowed *)
Definition updateModuleCompletionStatus (userId moduleId now : Z) : M unit :=
  catch (updateModuleCompletionStatus_body userId moduleId now) (fun _ => ret tt).

(** the argument object of [updateLessonProgress] *)
Record ProgressData := mkProgressData {
  pd_userId : Z;
  pd_moduleId : Z;
  pd_lessonId : string;
  pd_completed : bool;
  pd_timeSpent : Z;
  pd_quizScore : option Z }.

(** steps 1 to 3: touch the module row, upsert the lesson row *)
Definition touch_module_progress (u m now : Z) : M unit :=
  moduleProgress <- get_user_progress fault u m ;;
  match moduleProgress with
  | None => insert_user_progress fault u m now now
  | Some _ => touch_user_progress fault u m now
  end.

Definition upsert_lesson_progress (d : ProgressData) (now : Z) : M unit :=
  let u := pd_userId d in let m := pd_moduleId d in let l := pd_lessonId d in
  existing <- get_lesson_progress fault u m l ;;
  match existing with
  | Some e =>
      let newTimeSpent := time_spent e + pd_timeSpent d in
      update_lesson_progress fault u m l (pd_completed d) newTimeSpent
        (match pd_quizScore d with Some q => Some q | None => quiz_score e end)
        (if pd_completed d then Some now else completed_at e) now
  | None =>
      insert_lesson_progress fault u m l (pd_completed d) (pd_timeSpent d) (pd_quizScore d)
        (if pd_completed d then Some now else None) now
  end.

Definition updateLessonProgress (d : ProgressData) (now : Z) : M (ApiResponse LessonProgress) :=
  catch
    (touch_module_progress (pd_userId d) (pd_moduleId d) now ;;;
     upsert_lesson_progress d now ;;;
     updateModuleCompletionStatus (pd_userId d) (pd_moduleId d) now ;;;
     updatedProgress <- get_lesson_progress fault (pd_userId d) (pd_moduleId d) (pd_lessonId d) ;;
     match updatedProgress with
     | Some r => ret (ApiOk r)
     | None => ret (ApiErr FailedToRetrieveProgress)
     end)
    (fun e => ret (ApiErr (FailedToUpdateProgress e))).

Definition getModuleProgress (u m : Z) : M (option UserProgress * list LessonProgress) :=
  catch
    (moduleProgress <- get_user_progress fault u m ;;
     lessonProgress <- query_lesson_progress fault u m ;;
     ret (moduleProgress, lessonProgress))
    (fun _ => ret (None, [])).

(** returns [result.changes] of the second DELETE *)
Definition resetModuleProgress (u m : Z) : M (ApiResponse Z) :=
  catch
    (delete_user_progress fault u m ;;;
     result <- delete_lesson_progress fault u m ;;
     ret (ApiOk result))
    (fun e => ret (ApiErr (FailedToResetProgress e))).

(** [`CERT-${Date.now()}-${userId}-${moduleId}`] *)
Definition certificate_code_of (now u m : Z) : string :=
  ("CERT-" ++ Str.of_Z now ++ "-" ++ Str.of_Z u ++ "-" ++ Str.of_Z m)%string.

Definition sum_time_spent (ps : list LessonProgress) : Z :=
  fold_left (fun total p => total + time_spent p) ps 0.

Definition generateCertificate (userId moduleId now : Z) : M (ApiResponse Certificate) :=
  catch
    (lessonProgress <- query_completed fault userId moduleId ;;
     module <- get_module fault moduleId ;;
     user <- get_user fault userId ;;
     match module, user with
     | Some mr, Some ur =>
         parsedContent <- parse_content (content mr) ;;
         let nLessons := match lessons parsedContent with
                         | Some l => Z.of_nat (List.length l) | None => 0 end in
         if Num.lt_Z (Z.of_nat (List.length lessonProgress))
              (Num.fmul (Num.of_Z nLessons) Num.lit_0_8)
         then ret (ApiErr NotSufficientlyCompleted)
         else
           let certificateCode := certificate_code_of now userId moduleId in
           let certificateData :=
             mkCertData (username ur) (title mr) now (sum_time_spent lessonProgress) in
           lastID <- insert_certificate fault userId moduleId certificateCode certificateData now ;;
           newCertificate <- get_certificate_by_id fault lastID ;;
           match newCertificate with
           | Some c => ret (ApiOk c)
           | None => ret (ApiErr FailedToRetrieveCertificate)
           end
     | _, _ => ret (ApiErr ModuleOrUserNotFound)
     end)
    (fun e => ret (ApiErr (FailedToGenerateCertificate e))).

Definition verifyCertificate (code : string) : M (option Certificate) :=
  catch (get_certificate_by_code fault code) (fun _ => ret None).

End Ops.

End DatabaseManager.

(** ** The other methods of [DatabaseManager] on these tables

    The listing queries, the module deletions and the user lookups. The
    connection never runs [PRAGMA foreign_keys = ON], so the ON DELETE
    CASCADE clauses of the schema are not enforced: deleting a module row
    deletes nothing else. *)

Module DatabaseManagerRest.
Import Db DatabaseManager.

(** the columns of the [users] table in the schema *)
Definition users_columns : list string :=
  ["id"; "username"; "email"; "password_hash"; "role"; "created_at"; "updated_at"]%string.

(** sqlite resolves the named columns when it prepares a statement; an
    unknown column is an error ('no such column') whatever the rows *)
Definition columns_resolve (schema cols : list string) : bool :=
  forallb (fun c => existsb (String.eqb c) schema) cols.

(** the column list of [getAllUsers] and [getUserById] *)
Definition user_select_columns : list string :=
  ["id"; "username"; "email"; "avatar"; "created_at"]%string.

Definition with_modules (s : DB) (t : list ModuleRow) : DB :=
  mkDB (users s) t (user_progress s) (lesson_progress s) (certificates s)
    (next_cert_id s) (tick s).

(** the [message] and [error] strings of [deleteModule] and [deleteAllModules] *)
Inductive AdminMessage :=
| ModuleDeletedSuccessfully           (* 'Module deleted successfully' *)
| DeletedModules (n : Z).             (* `Deleted ${result.changes} modules` *)

Inductive AdminError :=
| ModuleNotFound                      (* 'Module not found' *)
| FailedToDeleteModule (e : Exn)      (* `Failed to delete module: ${error}` *)
| FailedToDeleteAllModules (e : Exn). (* `Failed to delete all modules: ${error}` *)

Inductive AdminResponse := AdminOk (message : AdminMessage) | AdminErr (error : AdminError).

Section Ops.

Variable fault : nat -> bool.

(** 'SELECT * FROM user_progress WHERE user_id = ?' *)
Definition query_user_progress (u : Z) : M (list UserProgress) :=
  store fault (fun s => (Ok (filter (fun r => up_user r =? u) (user_progress s)), s)).

(** 'SELECT * FROM lesson_progress WHERE user_id = ?' *)
Definition query_user_lesson_progress (u : Z) : M (list LessonProgress) :=
  store fault (fun s => (Ok (filter (fun r => lp_user r =? u) (lesson_progress s)), s)).

(** 'SELECT * FROM certificates WHERE user_id = ?' *)
Definition query_user_certificates (u : Z) : M (list Certificate) :=
  store fault (fun s => (Ok (filter (fun c => cert_user c =? u) (certificates s)), s)).

(** 'DELETE FROM modules WHERE id = ?'; returns [changes] *)
Definition delete_module (m : Z) : M Z :=
  store fault (fun s =>
    (Ok (Z.of_nat (List.length (filter (fun r => mod_id r =? m) (modules s)))),
     with_modules s (filter (fun r => negb (mod_id r =? m)) (modules s)))).

(** 'DELETE FROM modules'; returns [changes] *)
Definition delete_all_modules : M Z :=
  store fault (fun s => (Ok (Z.of_nat (List.length (modules s))), with_modules s [])).

(** 'SELECT id, username, email, avatar, created_at FROM users' *)
Definition select_users (cols : list string) : M (list UserRow) :=
  store fault (fun s =>
    if columns_resolve users_columns cols then (Ok (users s), s) else (Err StoreError, s)).

(** 'SELECT id, username, email, avatar, created_at FROM users WHERE id = ?' *)
Definition select_user_by_id (cols : list string) (u : Z) : M (option UserRow) :=
  store fault (fun s =>
    if columns_resolve users_columns cols then (Ok (find (fun r => user_id r =? u) (users s)), s)
    else (Err StoreError, s)).

Definition getUserProgress (userId : Z) : M (list UserProgress) :=
  catch (query_user_progress userId) (fun _ => ret []).

Definition getUserLessonProgress (userId : Z) : M (list LessonProgress) :=
  catch (query_user_lesson_progress userId) (fun _ => ret []).

Definition getUserCertificates (userId : Z) : M (list Certificate) :=
  catch (query_user_certificates userId) (fun _ => ret []).

Definition deleteModule (id : Z) : M AdminResponse :=
  catch
    (result <- delete_module id ;;
     if 0 <? result then ret (AdminOk ModuleDeletedSuccessfully)
     else ret (AdminErr ModuleNotFound))
    (fun e => ret (AdminErr (FailedToDeleteModule e))).

Definition deleteAllModules : M AdminResponse :=
  catch
    (result <- delete_all_modules ;;
     ret (AdminOk (DeletedModules result)))
    (fun e => ret (AdminErr (FailedToDeleteAllModules e))).

Definition getAllUsers : M (list UserRow) :=
  catch (select_users user_select_columns) (fun _ => ret []).

(** [user || null] *)
Definition getUserById (id : Z) : M (option UserRow) :=
  catch (select_user_by_id user_select_columns id) (fun _ => ret None).

End Ops.

End DatabaseManagerRest.

(** ** Runs of calls, and concrete databases *)

Module Runs.
Import Db DatabaseManager.

(** a sequence of [updateLessonProgress] calls, each with its clock value *)
Fixpoint run_updates (fault : nat -> bool) (calls : list (ProgressData * Z))
  : M (list (ApiResponse LessonProgress)) :=
  match calls with
  | [] => ret []
  | (d, now) :: rest =>
      r <- updateLessonProgress fault d now ;;
      rs <- run_updates fault rest ;;
      ret (r :: rs)
  end.

Definition no_fault : nat -> bool := fun _ => false.

Definition lesson_n (n : nat) : Lesson :=
  mkLesson ("lesson-" ++ Str.of_Z (Z.of_nat n))%string "".
Definition lessons_upto (n : nat) : list Lesson := map lesson_n (seq 1 n).

Definition quiz_1 : Quiz := mkQuiz "quiz-1" (Some "lesson-2"%string) 70.

Definition db_with (c : ModuleContent) : DB :=
  mkDB [mkUser 1 "amina"] [mkModule 1 "Intro" (DocJson c)] [] [] [] 1 0.

(** user 1 records a lesson or quiz of module 1 *)
Definition rec (l : string) (c : bool) (t : Z) (q : option Z) : ProgressData :=
  mkProgressData 1 1 l c t q.

Definition complete_lessons (n : nat) (t0 : Z) : list (ProgressData * Z) :=
  map (fun k => (rec (lesson_key (lesson_n k)) true 60 None, t0 + Z.of_nat k)) (seq 1 n).

(** the user progress row, and the lesson progress row, of a run *)
Definition module_row (s : DB) : option UserProgress := find (up_of 1 1) (user_progress s).
Definition lesson_row (l : string) (s : DB) : option LessonProgress :=
  find (lp_key 1 1 l) (lesson_progress s).

(** [round(100 * c / t)] on exact rationals, ties upwards *)
Definition exact_percentage (c t : Z) : Z := (200 * c + t) / (2 * t).

(** a module of 40 lessons, 23 of them completed *)
Definition db_40_lessons : DB := db_with (mkContent (Some (lessons_upto 40)) (Some [])).
Definition run_23_of_40 : DB := snd (run_updates no_fault (complete_lessons 23 0) db_40_lessons).

(** a module of one lesson, and two completed ids matching "lesson-%" *)
Definition db_1_lesson : DB := db_with (mkContent (Some (lessons_upto 1)) (Some [])).
Definition run_2_of_1 : DB :=
  snd (run_updates no_fault [(rec "lesson-1" true 60 None, 1); (rec "lesson-2" true 60 None, 2)]
         db_1_lesson).

(** module 1 of [db_40_lessons], its content, and the state after one call *)
Definition content_40 : ModuleContent := mkContent (Some (lessons_upto 40)) (Some []).
Definition module_40 : ModuleRow := mkModule 1 "Intro" (DocJson content_40).
Definition db_40_one_call : DB :=
  snd (run_updates no_fault [(rec "lesson-1" true 60 None, 1)] db_40_lessons).

(** two calls for lesson-1: a visit, then the completion *)
Definition calls_lesson_1 : list (ProgressData * Z) :=
  [(rec "lesson-1" false 60 None, 1); (rec "lesson-1" true 30 None, 2)].

Definition results_of {A} (r : Result A * DB) (default : A) : A :=
  match fst r with Ok a => a | Err _ => default end.

(** the (completed, completion_date) view of the row of a pair; a missing
    row reads as a fresh one *)
Definition flag_view (u m : Z) (s : DB) : bool * option Z :=
  match find (up_of u m) (user_progress s) with
  | Some r => (up_completed r, completion_date r)
  | None => (false, None)
  end.


(** the state after a fault-free run of calls *)
Definition after (calls : list (ProgressData * Z)) (s : DB) : DB :=
  snd (run_updates no_fault calls s).

(** lesson-1 completed at 10, re-recorded as not completed at 20, completed again at 30 *)
Definition calls_revert : list (ProgressData * Z) :=
  [(rec "lesson-1" true 60 None, 10); (rec "lesson-1" false 30 None, 20);
   (rec "lesson-1" true 30 None, 30)].

(** lesson-1 completed at 100, and completed again at 200 *)
Definition calls_recomplete : list (ProgressData * Z) :=
  [(rec "lesson-1" true 60 None, 100); (rec "lesson-1" true 30 None, 200)].

(** a module of five lessons and one quiz; three lessons and the quiz done *)
Definition content_5_1 : ModuleContent := mkContent (Some (lessons_upto 5)) (Some [quiz_1]).
Definition db_5_1 : DB := db_with content_5_1.
Definition calls_3_of_5_and_quiz : list (ProgressData * Z) :=
  complete_lessons 3 0 ++ [(rec "quiz-1" true 30 (Some 50), 10)].


(** the certificates of a pair *)
Definition pair_in (u m : Z) (t : list Certificate) : bool :=
  existsb (fun c => is_pair u m (cert_user c) (cert_module c)) t.
Definition certificates_of (u m : Z) (t : list Certificate) : list Certificate :=
  filter (fun c => is_pair u m (cert_user c) (cert_module c)) t.

(** the certificate an answer carries, if any *)
Definition cert_of (r : Result (ApiResponse Certificate)) : Certificate :=
  match r with
  | Ok (ApiOk c) => c
  | _ => mkCert 0 0 0 "" (mkCertData "" "" 0 0) 0
  end.

(** lesson-1 of [db_1_lesson] completed at 1, then a certificate issued at 500 *)
Definition db_done_1 : DB := after (complete_lessons 1 0) db_1_lesson.
Definition first_issue : Result (ApiResponse Certificate) * DB :=
  generateCertificate no_fault 1 1 500 db_done_1.

(** store call number 4 (counting from 0) fails: in a first
    [updateLessonProgress] on [db_1_lesson], the module lookup of the
    recomputation *)
Definition fault_at_4 : nat -> bool := fun n => Nat.eqb n 4.

(** the started_at view of the row of a pair *)
Definition started_view (u m : Z) (s : DB) : option (option Z) :=
  option_map started_at (find (up_of u m) (user_progress s)).

(** the same content with every quiz given passing score [p] *)
Definition with_passing (p : Z) (q : Quiz) : Quiz :=
  mkQuiz (quiz_key q) (afterLessonId q) p.
Definition content_with_passing (p : Z) (c : ModuleContent) : ModuleContent :=
  mkContent (lessons c) (option_map (map (with_passing p)) (quizzes c)).
Definition doc_with_passing (p : Z) (d : ContentDoc) : ContentDoc :=
  match d with DocJson c => DocJson (content_with_passing p c) | _ => d end.
Definition db_with_passing (p : Z) (s : DB) : DB :=
  mkDB (users s)
    (map (fun r => mkModule (mod_id r) (title r) (doc_with_passing p (content r))) (modules s))
    (user_progress s) (lesson_progress s) (certificates s) (next_cert_id s) (tick s).

(** a module of one lesson and a quiz passed at 70: the lesson completed,
    the quiz completed with score 10 *)
Definition db_lesson_quiz : DB := db_with (mkContent (Some (lessons_upto 1)) (Some [quiz_1])).
Definition calls_low_quiz : list (ProgressData * Z) :=
  [(rec "lesson-1" true 60 None, 1); (rec "quiz-1" true 45 (Some 10), 2)].

Definition second_issue : Result (ApiResponse Certificate) * DB :=
  generateCertificate no_fault 1 1 600 (snd first_issue).

(** the aggregate columns of the (u, m) row of [user_progress] *)
Definition aggregate_view (u m : Z) (s : DB) : option (Z * bool * option Z) :=
  option_map (fun r => (progress_percentage r, up_completed r, completion_date r))
    (find (up_of u m) (user_progress s)).

(** module [m] has no row, content that does not parse, or no lessons and
    no quizzes *)
Definition nothing_to_count (m : Z) (s : DB) : bool :=
  match find (fun r => mod_id r =? m) (modules s) with
  | None => true
  | Some mr =>
      match parse_doc (content mr) with
      | Err _ => true
      | Ok pc => total_lessons pc + total_quizzes pc =? 0
      end
  end.

(** every certificate id is below the AUTOINCREMENT counter *)
Definition cert_ids_below (s : DB) : bool :=
  forallb (fun c => cert_id c <? next_cert_id s) (certificates s).

(** no two elements of a list are [same] *)
Fixpoint nodupb {X} (same : X -> X -> bool) (l : list X) : bool :=
  match l with
  | [] => true
  | x :: l' => negb (existsb (same x) l') && nodupb same l'
  end.

Definition up_same (r r' : UserProgress) : bool := up_of (up_user r) (up_module r) r'.
Definition lp_same (r r' : LessonProgress) : bool :=
  lp_key (lp_user r) (lp_module r) (lesson_id r) r'.

(** the UNIQUE (user_id, module_id) and UNIQUE (user_id, module_id,
    lesson_id) constraints of the schema hold *)
Definition unique_keys (s : DB) : bool :=
  nodupb up_same (user_progress s) && nodupb lp_same (lesson_progress s).

(** the write operations of [DatabaseManager] on progress and certificates *)
Inductive Call :=
| CallUpdate (d : ProgressData) (now : Z)
| CallReset (u m : Z)
| CallCertificate (u m now : Z)
| CallDeleteModule (m : Z).

Definition call (fault : nat -> bool) (c : Call) : M unit :=
  match c with
  | CallUpdate d now => updateLessonProgress fault d now ;;; ret tt
  | CallReset u m => resetModuleProgress fault u m ;;; ret tt
  | CallCertificate u m now => generateCertificate fault u m now ;;; ret tt
  | CallDeleteModule m => DatabaseManagerRest.deleteModule fault m ;;; ret tt
  end.

Fixpoint run_calls (fault : nat -> bool) (cs : list Call) : M unit :=
  match cs with
  | [] => ret tt
  | c :: rest => call fault c ;;; run_calls fault rest
  end.

(** a module whose content has no lessons and no quizzes *)
Definition db_empty_module : DB := db_with (mkContent (Some []) (Some [])).

(** a module whose content has quizzes but no [lessons] field *)
Definition db_quiz_only : DB := db_with (mkContent None (Some [quiz_1])).

(** lessons recorded, redone, a certificate issued, progress reset, the
    module deleted, and a lesson recorded again *)
Definition calls_mixed : list Call :=
  [CallUpdate (rec "lesson-1" true 60 None) 1; CallUpdate (rec "lesson-1" false 30 None) 2;
   CallUpdate (rec "quiz-1" true 20 (Some 90)) 3; CallCertificate 1 1 4; CallReset 1 1;
   CallUpdate (rec "lesson-1" true 10 None) 5; CallDeleteModule 1;
   CallUpdate (rec "lesson-2" true 10 None) 6].

(** a quiz recorded with a score, then again without one *)
Definition calls_quiz_twice : list (ProgressData * Z) :=
  [(rec "quiz-1" true 45 (Some 80), 1)].
Definition quiz_again : ProgressData := rec "quiz-1" false 15 None.

(** the row an answer of [updateLessonProgress] carries, if any *)
Definition row_of (r : Result (ApiResponse LessonProgress)) : LessonProgress :=
  match r with
  | Ok (ApiOk x) => x
  | _ => mkLP 0 0 "" false 0 None None 0
  end.

(** the quiz of [db_5_1] passed with 80, then recorded again without a score *)
Definition quiz_again_run : Result (ApiResponse LessonProgress) * DB :=
  updateLessonProgress no_fault quiz_again 2 (after calls_quiz_twice db_5_1).

End Runs.

(** ** Accounts: [createUser] and [authenticateUser]

    These two methods read and write the [users] columns that the progress
    model leaves out (email, password hash, role), so they get a state of
    their own: the [users] table with those columns. [bcrypt] is a
    parameter. *)

Module Accounts.

(** a row of [users] with the columns these two methods read and write *)
Record Account := mkAccount {
  acc_id : Z;
  acc_username : string;
  acc_email : string;
  password_hash : string;
  acc_role : string }.

(** the user object returned, after [password_hash] is removed *)
Record PublicUser := mkPublicUser {
  pu_id : Z; pu_username : string; pu_email : string; pu_role : string }.

Definition without_password (a : Account) : PublicUser :=
  mkPublicUser (acc_id a) (acc_username a) (acc_email a) (acc_role a).

(** the [users] table, the AUTOINCREMENT counter, and the number of store
    calls made so far *)
Record AccountsDB := mkAccountsDB {
  accounts : list Account;
  next_user_id : Z;
  atick : nat }.

Inductive Exn := StoreError | ConstraintUnique.
Inductive Result (A : Type) := Ok (a : A) | Err (e : Exn).
Arguments Ok {A} a.
Arguments Err {A} e.

Inductive AccountError :=
| UserAlreadyExists              (* 'User with this email or username already exists' *)
| FailedToRetrieveCreatedUser    (* 'Failed to retrieve created user' *)
| FailedToCreateUser (e : Exn)   (* `Failed to create user: ${error}` *)
| InvalidEmailOrPassword         (* 'Invalid email or password' *)
| AuthenticationFailed (e : Exn). (* `Authentication failed: ${error}` *)

Inductive AccountResponse := AccOk (data : PublicUser) | AccErr (error : AccountError).

Definition M (A : Type) : Type := AccountsDB -> Result A * AccountsDB.
Definition ret {A} (a : A) : M A := fun s => (Ok a, s).
Definition bind {A B} (m : M A) (k : A -> M B) : M B :=
  fun s => match m s with
           | (Ok a, s') => k a s'
           | (Err e, s') => (Err e, s')
           end.
Definition catch {A} (m : M A) (h : Exn -> M A) : M A :=
  fun s => match m s with
           | (Ok a, s') => (Ok a, s')
           | (Err e, s') => h e s'
           end.
Notation "x <- m ;; k" := (bind m (fun x => k))
  (at level 61, m at next level, right associativity).

Definition abump (s : AccountsDB) : AccountsDB :=
  mkAccountsDB (accounts s) (next_user_id s) (S (atick s)).

(** the argument of [createUser]: [password_hash] carries the plain password *)
Record NewUser := mkNewUser { nu_username : string; nu_email : string; nu_password : string }.

Section Ops.

(** [fault n]: the [n]-th store call fails; [hash n p] is [bcrypt.hash(p, 10)]
    with the salt drawn at that point of the run; [compare] is [bcrypt.compare] *)
Variable fault : nat -> bool.
Variable hash : nat -> string -> string.
Variable compare : string -> string -> bool.

Definition store {A} (op : AccountsDB -> Result A * AccountsDB) : M A :=
  fun s => let s1 := abump s in
           if fault (atick s) then (Err StoreError, s1) else op s1.

(** the salt of the next [bcrypt.hash] *)
Definition hash_now (p : string) : M string := fun s => (Ok (hash (atick s) p), s).

(** 'SELECT * FROM users WHERE email = ? OR username = ?' *)
Definition get_by_email_or_username (e u : string) : M (option Account) :=
  store (fun s => (Ok (find (fun a => String.eqb (acc_email a) e
                                     || String.eqb (acc_username a) u) (accounts s)), s)).

(** 'SELECT * FROM users WHERE email = ?' *)
Definition get_by_email (e : string) : M (option Account) :=
  store (fun s => (Ok (find (fun a => String.eqb (acc_email a) e) (accounts s)), s)).

(** 'SELECT * FROM users WHERE id = ?' *)
Definition get_by_id (id : Z) : M (option Account) :=
  store (fun s => (Ok (find (fun a => acc_id a =? id) (accounts s)), s)).

(** 'INSERT INTO users (username, email, password_hash) VALUES (?, ?, ?)':
    username and email are UNIQUE, role defaults to 'student'; returns [lastID] *)
Definition insert_user (u e h : string) : M Z :=
  store (fun s =>
    if existsb (fun a => String.eqb (acc_username a) u || String.eqb (acc_email a) e)
         (accounts s)
    then (Err ConstraintUnique, s)
    else let id := next_user_id s in
         (Ok id, mkAccountsDB (accounts s ++ [mkAccount id u e h "student"]) (id + 1) (atick s))).

Definition createUser (userData : NewUser) : M AccountResponse :=
  catch
    (existingUser <- get_by_email_or_username (nu_email userData) (nu_username userData) ;;
     match existingUser with
     | Some _ => ret (AccErr UserAlreadyExists)
     | None =>
         hashedPassword <- hash_now (nu_password userData) ;;
         lastID <- insert_user (nu_username userData) (nu_email userData) hashedPassword ;;
         newUser <- get_by_id lastID ;;
         match newUser with
         | Some a => ret (AccOk (without_password a))
         | None => ret (AccErr FailedToRetrieveCreatedUser)
         end
     end)
    (fun e => ret (AccErr (FailedToCreateUser e))).

Definition authenticateUser (email password : string) : M AccountResponse :=
  catch
    (user <- get_by_email email ;;
     match user with
     | None => ret (AccErr InvalidEmailOrPassword)
     | Some a =>
         if compare password (password_hash a) then ret (AccOk (without_password a))
         else ret (AccErr InvalidEmailOrPassword)
     end)
    (fun e => ret (AccErr (AuthenticationFailed e))).

End Ops.

(** UNIQUE username and UNIQUE email hold *)
Definition unique_accounts (s : AccountsDB) : bool :=
  Runs.nodupb (fun a b => String.eqb (acc_email a) (acc_email b)) (accounts s)
  && Runs.nodupb (fun a b => String.eqb (acc_username a) (acc_username b)) (accounts s).

(** the seeded administrator, and a sign-up *)
Definition accounts_seed : AccountsDB :=
  mkAccountsDB [mkAccount 1 "admin" "admin@ourafrica.com" "seed-hash" "admin"] 2 0.
Definition new_amina : NewUser := mkNewUser "amina" "amina@example.org" "s3cret".
Definition new_admin_again : NewUser := mkNewUser "admin2" "admin@ourafrica.com" "x".

(** a stand-in for bcrypt in concrete runs: the "hash" is the password *)
Definition plain_hash (n : nat) (p : string) : string := p.

(** a sign-up on the seeded table, and the user it answers *)
Definition signup : AccountResponse * AccountsDB :=
  match createUser (fun _ => false) plain_hash new_amina accounts_seed with
  | (Ok r, s) => (r, s)
  | (Err e, s) => (AccErr (FailedToCreateUser e), s)
  end.
Definition public_of (r : AccountResponse) : PublicUser :=
  match r with AccOk u => u | AccErr _ => mkPublicUser 0 "" "" "" end.

End Accounts.


(** * Proofs *)

(** ** Bounds of the binary64 model *)

Module NumFacts.
Import Num.

Lemma rne_le (n d K : Z) : 0 <= n -> 0 < d -> n <= K * d -> rne n d <= K.
Proof.
  intros Hn Hd Hle. unfold rne.
  assert (Hq : n / d <= K) by (apply Z.div_le_upper_bound; lia).
  pose proof (Z.div_mod n d ltac:(lia)) as Hdm.
  pose proof (Z.mod_pos_bound n d Hd) as Hr.
  destruct (Z.eq_dec (n / d) K) as [Heq|Hne].
  - assert (n mod d = 0) by (rewrite Heq in Hdm; nia).
    replace (2 * (n mod d) <? d) with true by (symmetry; apply Z.ltb_lt; lia). lia.
  - destruct (2 * (n mod d) <? d); [lia|].
    destruct (d <? 2 * (n mod d)); [lia|].
    destruct (Z.even (n / d)); lia.
Qed.

Lemma rne_nonneg (n d : Z) : 0 <= n -> 0 < d -> 0 <= rne n d.
Proof.
  intros Hn Hd. unfold rne.
  assert (0 <= n / d) by (apply Z.div_pos; lia).
  destruct (2 * (n mod d) <? d); [lia|].
  destruct (d <? 2 * (n mod d)); [lia|].
  destruct (Z.even (n / d)); lia.
Qed.

Lemma rne_exact (n : Z) : rne n 1 = n.
Proof. unfold rne. rewrite Z.div_1_r, Z.mod_1_r. reflexivity. Qed.

Lemma exp_of_nonpos (a b N : Z) :
  0 < a -> 0 < b -> 0 <= N -> Z.log2 N <= 51 -> a <= N * b -> exp_of a b <= 0.
Proof.
  intros Ha Hb HN HlN Hle.
  assert (HNp : 0 < N) by nia.
  assert (Hl : Z.log2 a <= Z.log2 N + Z.log2 b + 1).
  { transitivity (Z.log2 (N * b)); [apply Z.log2_le_mono; exact Hle|].
    apply Z.log2_mul_above; lia. }
  unfold exp_of. destruct (_ <? _); lia.
Qed.

(** the double nearest to [a/b <= N] is at most [N] *)
Lemma round_q_le (a b N a' b' : Z) :
  0 <= a -> 0 < b -> 0 <= N -> Z.log2 N <= 51 -> a <= N * b ->
  frac (round_q a b) = (a', b') -> 0 <= a' /\ 0 < b' /\ a' <= N * b'.
Proof.
  intros Ha Hb HN HlN Hle Hf. unfold round_q in Hf.
  destruct (Z.eqb_spec a 0) as [->|Ha0].
  - unfold frac in Hf. simpl in Hf. inversion Hf; subst. lia.
  - pose proof (exp_of_nonpos a b N ltac:(lia) Hb HN HlN Hle) as He.
    set (e := exp_of a b) in *. clearbody e.
    assert (Hnum : num_at a e = a * 2 ^ (- e)) by (unfold num_at; destruct (Z.leb_spec e 0); lia).
    assert (Hden : den_at b e = b) by (unfold den_at; destruct (Z.leb_spec e 0); lia).
    rewrite Hnum, Hden in Hf.
    assert (Hp : 0 < 2 ^ (- e)) by (apply Z.pow_pos_nonneg; lia).
    assert (Hm : rne (a * 2 ^ (- e)) b <= N * 2 ^ (- e)) by (apply rne_le; nia).
    assert (Hm0 : 0 <= rne (a * 2 ^ (- e)) b) by (apply rne_nonneg; nia).
    unfold frac in Hf. simpl in Hf.
    destruct (Z.leb_spec 0 e).
    + assert (He0 : e = 0) by lia. rewrite He0 in *. simpl in *.
      inversion Hf; subst. lia.
    + inversion Hf; subst. lia.
Qed.

(** small integers are exact *)
Lemma of_Z_exact (n a b : Z) :
  0 <= n -> Z.log2 n <= 51 -> frac (of_Z n) = (a, b) -> a = n * b /\ 0 < b.
Proof.
  intros Hn Hl Hf. unfold of_Z, round_q in Hf.
  destruct (Z.eqb_spec n 0) as [->|Hn0].
  - unfold frac in Hf. simpl in Hf. inversion Hf; subst. lia.
  - pose proof (exp_of_nonpos n 1 n ltac:(lia) ltac:(lia) Hn Hl ltac:(lia)) as He.
    set (e := exp_of n 1) in *. clearbody e.
    assert (Hnum : num_at n e = n * 2 ^ (- e)) by (unfold num_at; destruct (Z.leb_spec e 0); lia).
    assert (Hden : den_at 1 e = 1) by (unfold den_at; destruct (Z.leb_spec e 0); lia).
    rewrite Hnum, Hden, rne_exact in Hf.
    assert (Hp : 0 < 2 ^ (- e)) by (apply Z.pow_pos_nonneg; lia).
    unfold frac in Hf. simpl in Hf.
    destruct (Z.leb_spec 0 e).
    + assert (He0 : e = 0) by lia. rewrite He0 in *. simpl in *.
      inversion Hf; subst. lia.
    + inversion Hf; subst. lia.
Qed.

(** [0 <= Math.round((c / t) * 100) <= 100] when [0 <= c <= t] *)
Lemma percentage_bounds (c t : Z) :
  0 <= c -> c <= t -> 0 < t -> Z.log2 t <= 51 ->
  0 <= math_round (fmul (fdiv (of_Z c) (of_Z t)) (of_Z 100)) <= 100.
Proof.
  intros Hc Hct Ht Hl.
  assert (Hlc : Z.log2 c <= 51) by (pose proof (Z.log2_le_mono c t Hct); lia).
  unfold fdiv.
  destruct (frac (of_Z c)) as [a1 b1] eqn:F1.
  destruct (frac (of_Z t)) as [a2 b2] eqn:F2.
  destruct (of_Z_exact c a1 b1 Hc Hlc F1) as [-> Hb1].
  destruct (of_Z_exact t a2 b2 ltac:(lia) Hl F2) as [-> Hb2].
  unfold fmul.
  destruct (frac (round_q (c * b1 * b2) (b1 * (t * b2)))) as [a3 b3] eqn:F3.
  destruct (round_q_le (c * b1 * b2) (b1 * (t * b2)) 1 a3 b3 ltac:(nia) ltac:(nia)
              ltac:(lia) ltac:(simpl; lia) ltac:(nia) F3) as [Ha3 [Hb3 H3]].
  destruct (frac (of_Z 100)) as [a4 b4] eqn:F4.
  destruct (of_Z_exact 100 a4 b4 ltac:(lia) ltac:(simpl; lia) F4) as [-> Hb4].
  unfold math_round.
  destruct (frac (round_q (a3 * (100 * b4)) (b3 * b4))) as [a5 b5] eqn:F5.
  destruct (round_q_le (a3 * (100 * b4)) (b3 * b4) 100 a5 b5 ltac:(nia) ltac:(nia)
              ltac:(lia) ltac:(simpl; lia) ltac:(nia) F5) as [Ha5 [Hb5 H5]].
  split.
  - apply Z.div_pos; lia.
  - assert ((2 * a5 + b5) / (2 * b5) < 101) by (apply Z.div_lt_upper_bound; lia).
    lia.
Qed.

End NumFacts.

Module Facts.
Import Db DatabaseManager Runs.

(** ** Frame: which tables a computation leaves alone *)

Definition keeps {T A} (proj : DB -> T) (m : M A) : Prop :=
  forall s r s', m s = (r, s') -> proj s' = proj s.

Lemma keeps_ret {T A} (proj : DB -> T) (a : A) : keeps proj (ret a).
Proof. intros s r s' H. inversion H. reflexivity. Qed.

Lemma keeps_throw {T A} (proj : DB -> T) (e : Exn) : keeps proj (@throw A e).
Proof. intros s r s' H. inversion H. reflexivity. Qed.

Lemma keeps_bind {T A B} (proj : DB -> T) (m : M A) (k : A -> M B) :
  keeps proj m -> (forall a, keeps proj (k a)) -> keeps proj (bind m k).
Proof.
  intros Hm Hk s r s' H. unfold bind in H.
  destruct (m s) as [[a|e] s1] eqn:E.
  - rewrite (Hk a s1 r s' H). exact (Hm _ _ _ E).
  - inversion H; subst. exact (Hm _ _ _ E).
Qed.

Lemma keeps_catch {T A} (proj : DB -> T) (m : M A) (h : Exn -> M A) :
  keeps proj m -> (forall e, keeps proj (h e)) -> keeps proj (catch m h).
Proof.
  intros Hm Hh s r s' H. unfold catch in H.
  destruct (m s) as [[a|e] s1] eqn:E.
  - inversion H; subst. exact (Hm _ _ _ E).
  - rewrite (Hh e s1 r s' H). exact (Hm _ _ _ E).
Qed.

Lemma keeps_store {T A} (fault : nat -> bool) (proj : DB -> T) (op : DB -> Result A * DB) :
  (forall s, proj (bump s) = proj s) ->
  (forall s r s', op (bump s) = (r, s') -> proj s' = proj s) ->
  keeps proj (store fault op).
Proof.
  intros Hb Hop s r s' H. unfold store in H.
  destruct (fault (tick s)).
  - inversion H; subst. apply Hb.
  - exact (Hop _ _ _ H).
Qed.

Lemma keeps_parse {T} (proj : DB -> T) d : keeps proj (parse_content d).
Proof. intros s r s' H. inversion H. reflexivity. Qed.

Ltac keeps_op :=
  intros; apply keeps_store; [reflexivity|];
  intros ? ? ? Hop;
  repeat match type of Hop with
  | context [if ?c then _ else _] => destruct c
  end;
  inversion Hop; subst; reflexivity.

Ltac keeps_struct :=
  repeat first
    [ apply keeps_bind; [|intro]
    | apply keeps_catch; [|intro]
    | apply keeps_ret
    | apply keeps_throw
    | match goal with
      | |- keeps _ (match ?x with _ => _ end) => destruct x
      | |- keeps _ (if ?x then _ else _) => destruct x
      end ].

(** the lesson table is written only by the lesson upsert and the reset *)
Section LessonTable.
Variable fault : nat -> bool.

Lemma lp_get_user_progress u m : keeps lesson_progress (get_user_progress fault u m).
Proof. keeps_op. Qed.
Lemma lp_insert_user_progress u m a b : keeps lesson_progress (insert_user_progress fault u m a b).
Proof. keeps_op. Qed.
Lemma lp_touch_user_progress u m t : keeps lesson_progress (touch_user_progress fault u m t).
Proof. keeps_op. Qed.
Lemma lp_update_aggregate u m p c d : keeps lesson_progress (update_aggregate fault u m p c d).
Proof. keeps_op. Qed.
Lemma lp_get_module m : keeps lesson_progress (get_module fault m).
Proof. keeps_op. Qed.
Lemma lp_count_lessons u m : keeps lesson_progress (count_completed_lessons fault u m).
Proof. keeps_op. Qed.
Lemma lp_count_quizzes u m : keeps lesson_progress (count_completed_quizzes fault u m).
Proof. keeps_op. Qed.

Lemma lp_touch_module_progress u m now : keeps lesson_progress (touch_module_progress fault u m now).
Proof.
  unfold touch_module_progress. keeps_struct;
    auto using lp_get_user_progress, lp_insert_user_progress, lp_touch_user_progress.
Qed.

Lemma lp_updateModuleCompletionStatus u m now :
  keeps lesson_progress (updateModuleCompletionStatus fault u m now).
Proof.
  unfold updateModuleCompletionStatus, updateModuleCompletionStatus_body.
  keeps_struct;
    auto using keeps_parse, lp_get_user_progress, lp_get_module, lp_count_lessons, lp_count_quizzes,
      lp_update_aggregate.
Qed.

End LessonTable.

(** ** Lookups in updated tables *)

Lemma find_map_upd {X} (p : X -> bool) (g : X -> X) (l : list X) :
  (forall x, p x = true -> p (g x) = true) ->
  find p (map (fun x => if p x then g x else x) l) = option_map g (find p l).
Proof.
  intros Hg. induction l as [|a l IH]; simpl; [reflexivity|].
  destruct (p a) eqn:E; simpl.
  - rewrite (Hg a E). reflexivity.
  - rewrite E. exact IH.
Qed.

Lemma find_none_existsb {X} (p : X -> bool) (l : list X) :
  find p l = None <-> existsb p l = false.
Proof.
  induction l as [|a l IH]; simpl; [tauto|].
  destruct (p a); simpl; [split; discriminate|exact IH].
Qed.

Lemma find_app_last {X} (p : X -> bool) (l : list X) (x : X) :
  find p l = None -> p x = true -> find p (l ++ [x]) = Some x.
Proof.
  intros Hn Hx. induction l as [|a l IH]; simpl in *.
  - rewrite Hx. reflexivity.
  - destruct (p a); [discriminate|exact (IH Hn)].
Qed.

Lemma find_app_some {X} (p : X -> bool) (l l' : list X) (x : X) :
  find p l = Some x -> find p (l ++ l') = Some x.
Proof.
  induction l as [|a l IH]; simpl; [discriminate|].
  destruct (p a); [exact (fun H => H)|exact IH].
Qed.

Lemma lp_key_refl u m l c t q cat now :
  lp_key u m l (mkLP u m l c t q cat now) = true.
Proof.
  unfold lp_key, lp_of, is_pair; simpl.
  rewrite !Z.eqb_refl, String.eqb_refl. reflexivity.
Qed.

Lemma lp_key_upd u m l r c t q cat now :
  lp_key u m l r = true ->
  lp_key u m l (mkLP (lp_user r) (lp_module r) (lesson_id r) c t q cat now) = true.
Proof. unfold lp_key, lp_of, is_pair; simpl. exact (fun H => H). Qed.

Section Reconciler.
Variable fault : nat -> bool.

Lemma updateModuleCompletionStatus_ok u m now s :
  fst (updateModuleCompletionStatus fault u m now s) = Ok tt.
Proof.
  unfold updateModuleCompletionStatus, catch.
  destruct (updateModuleCompletionStatus_body fault u m now s) as [[[]|e] s'];
    reflexivity.
Qed.

(** what one successful upsert leaves in the row of its key *)
Lemma upsert_lesson_row d now s s' :
  upsert_lesson_progress fault d now s = (Ok tt, s') ->
  let key := lp_key (pd_userId d) (pd_moduleId d) (pd_lessonId d) in
  let before := find key (lesson_progress s) in
  exists r,
    find key (lesson_progress s') = Some r /\
    time_spent r = match before with
                   | Some e => time_spent e + pd_timeSpent d
                   | None => pd_timeSpent d
                   end /\
    lp_completed r = pd_completed d /\
    completed_at r = if pd_completed d then Some now
                     else match before with Some e => completed_at e | None => None end.
Proof.
  unfold upsert_lesson_progress, bind, get_lesson_progress, store. intros H.
  destruct (fault (tick s)); [discriminate|]. simpl in H.
  destruct (find _ (lesson_progress s)) as [e|] eqn:F.
  - unfold update_lesson_progress, store in H.
    destruct (fault (tick (bump s))); inversion H; subst; clear H. simpl.
    rewrite find_map_upd by (intros; apply lp_key_upd; assumption).
    rewrite F. simpl. eexists; repeat split; reflexivity.
  - unfold insert_lesson_progress, store in H.
    destruct (fault (tick (bump s))); [discriminate|]. simpl in H.
    apply find_none_existsb in F as F'. rewrite F' in H.
    inversion H; subst; clear H. simpl.
    rewrite find_app_last by (assumption || apply lp_key_refl).
    eexists; repeat split; reflexivity.
Qed.

(** a call that answers [success: true] went through steps 1 to 3 *)
Lemma updateLessonProgress_ok_inv d now s r s' :
  updateLessonProgress fault d now s = (Ok (ApiOk r), s') ->
  exists s1 s2,
    touch_module_progress fault (pd_userId d) (pd_moduleId d) now s = (Ok tt, s1) /\
    upsert_lesson_progress fault d now s1 = (Ok tt, s2) /\
    lesson_progress s' = lesson_progress s2 /\
    find (lp_key (pd_userId d) (pd_moduleId d) (pd_lessonId d)) (lesson_progress s2) = Some r.
Proof.
  unfold updateLessonProgress, catch, bind. intros H.
  destruct (touch_module_progress fault _ _ now s) as [[[]|e1] s1] eqn:E1;
    [|discriminate].
  destruct (upsert_lesson_progress fault d now s1) as [[[]|e2] s2] eqn:E2;
    [|discriminate].
  pose proof (updateModuleCompletionStatus_ok (pd_userId d) (pd_moduleId d) now s2) as Hok.
  destruct (updateModuleCompletionStatus fault _ _ now s2) as [[[]|e3] s3] eqn:E3;
    [|discriminate].
  pose proof (lp_updateModuleCompletionStatus fault _ _ _ _ _ _ E3) as Hs3.
  unfold get_lesson_progress, store in H.
  destruct (fault (tick s3)); [discriminate|]. simpl in H.
  destruct (find _ (lesson_progress s3)) as [r'|] eqn:F; [|discriminate].
  inversion H; subst; clear H.
  exists s1, s2. repeat split; try reflexivity; try assumption.
  rewrite <- Hs3. exact F.
Qed.

(** the recomputation either makes the planned write, or fails and writes nothing *)
Lemma updateModuleCompletionStatus_body_spec u m now s r s' :
  updateModuleCompletionStatus_body fault u m now s = (r, s') ->
  lesson_progress s' = lesson_progress s /\ modules s' = modules s /\
  ((r = Ok tt /\ exists w, recompute_plan u m now s = Ok w /\
                           user_progress s' = apply_plan u m w (user_progress s))
   \/ (exists e, r = Err e /\ user_progress s' = user_progress s)).
Proof.
  unfold updateModuleCompletionStatus_body, recompute_plan, bind, get_module, store.
  intros H.
  destruct (fault (tick s)); [inversion H; subst; simpl; eauto 10|]. simpl in H.
  destruct (find _ (modules s)) as [mr|] eqn:Fm;
    [|inversion H; subst; simpl; split; [|split]; eauto 10].
  unfold parse_content in H.
  destruct (parse_doc (content mr)) as [pc|e] eqn:Fp;
    [|inversion H; subst; simpl; split; [|split]; eauto 10].
  destruct (_ =? 0) eqn:Ft;
    [unfold ret in H; inversion H; subst; simpl; split; [|split]; eauto 10|].
  unfold count_completed_lessons, store in H.
  destruct (fault (tick (bump s))); [inversion H; subst; simpl; eauto 10|]. simpl in H.
  unfold count_completed_quizzes, store in H.
  destruct (fault (tick (bump (bump s)))); [inversion H; subst; simpl; eauto 10|]. simpl in H.
  unfold get_user_progress, store in H.
  destruct (fault (tick (bump (bump (bump s))))); [inversion H; subst; simpl; eauto 10|].
  simpl in H.
  destruct (find (up_of u m) (user_progress s)) as [cur|] eqn:Fc;
    [|unfold ret in H; inversion H; subst; simpl; split; [|split]; eauto 10].
  unfold update_aggregate, store in H.
  destruct (fault (tick (bump (bump (bump (bump s)))))); [inversion H; subst; simpl; eauto 10|].
  inversion H; subst; clear H. simpl. split; [|split]; [reflexivity|reflexivity|].
  left. split; [reflexivity|]. eexists. split; reflexivity.
Qed.

Lemma update_rows_of_idem u m f t :
  (forall r, up_of u m r = true -> up_of u m (f r) = true /\ f (f r) = f r) ->
  update_rows_of u m f (update_rows_of u m f t) = update_rows_of u m f t.
Proof.
  intros Hf. unfold update_rows_of. rewrite map_map. apply map_ext.
  intros r. destruct (up_of u m r) eqn:E.
  - destruct (Hf r E) as [H1 H2]. rewrite H1, H2. reflexivity.
  - rewrite E. reflexivity.
Qed.

Lemma find_update_rows_of u m f t :
  (forall r, up_of u m r = true -> up_of u m (f r) = true) ->
  find (up_of u m) (update_rows_of u m f t) = option_map f (find (up_of u m) t).
Proof. intros Hf. unfold update_rows_of. apply find_map_upd. exact Hf. Qed.

Lemma up_of_set_aggregate u m p c d r : up_of u m (set_aggregate p c d r) = up_of u m r.
Proof. reflexivity. Qed.

Lemma up_of_set_last_accessed u m t r : up_of u m (set_last_accessed t r) = up_of u m r.
Proof. reflexivity. Qed.

(** a second recomputation over the same lesson rows plans the same write *)
Lemma recompute_plan_stable u m now now' s s' w :
  recompute_plan u m now s = Ok w ->
  modules s' = modules s -> lesson_progress s' = lesson_progress s ->
  user_progress s' = apply_plan u m w (user_progress s) ->
  exists w', recompute_plan u m now' s' = Ok w' /\
             apply_plan u m w' (user_progress s') = user_progress s'.
Proof.
  intros Hw Hm Hl Hu. unfold recompute_plan in *. rewrite Hm, Hl.
  destruct (find _ (modules s)) as [mr|]; [|inversion Hw; subst; eauto].
  destruct (parse_doc (content mr)) as [pc|e]; [|discriminate].
  destruct (_ =? 0); [inversion Hw; subst; eauto|].
  destruct (find (up_of u m) (user_progress s)) as [cur|] eqn:Fc;
    [|inversion Hw; subst; simpl in Hu; rewrite Hu, Fc; eauto].
  inversion Hw; subst w; clear Hw. simpl in Hu. rewrite Hu.
  rewrite find_update_rows_of by (intros; assumption).
  rewrite Fc. simpl. eexists. split; [reflexivity|].
  simpl. rewrite andb_negb_r. simpl.
  apply update_rows_of_idem. intros r Hr. split; [exact Hr|reflexivity].
Qed.

Lemma updateModuleCompletionStatus_state u m now s :
  snd (updateModuleCompletionStatus fault u m now s)
  = snd (updateModuleCompletionStatus_body fault u m now s).
Proof.
  unfold updateModuleCompletionStatus, catch.
  destruct (updateModuleCompletionStatus_body fault u m now s) as [[]]; reflexivity.
Qed.

(** the module-progress table is not written by the lesson upsert *)
Lemma up_get_lesson_progress u m l : keeps user_progress (get_lesson_progress fault u m l).
Proof. keeps_op. Qed.
Lemma up_update_lesson_progress u m l c t q a n :
  keeps user_progress (update_lesson_progress fault u m l c t q a n).
Proof. keeps_op. Qed.
Lemma up_insert_lesson_progress u m l c t q a n :
  keeps user_progress (insert_lesson_progress fault u m l c t q a n).
Proof. keeps_op. Qed.

Lemma up_upsert_lesson_progress d now : keeps user_progress (upsert_lesson_progress fault d now).
Proof.
  unfold upsert_lesson_progress. keeps_struct;
    auto using up_get_lesson_progress, up_update_lesson_progress, up_insert_lesson_progress.
Qed.

(** step 1: the module row after the touch *)
Lemma touch_module_progress_row u m now s r s1 :
  touch_module_progress fault u m now s = (r, s1) ->
  (r = Ok tt /\
   find (up_of u m) (user_progress s1) =
     Some (match find (up_of u m) (user_progress s) with
           | None => mkUP u m 0 false (Some now) None 0 now
           | Some cur => set_last_accessed now cur
           end))
  \/ (exists e, r = Err e /\ user_progress s1 = user_progress s).
Proof.
  unfold touch_module_progress, bind, get_user_progress, store. intros H.
  destruct (fault (tick s)); [inversion H; subst; right; eauto|]. simpl in H.
  destruct (find (up_of u m) (user_progress s)) as [cur|] eqn:F.
  - unfold touch_user_progress, store in H.
    destruct (fault (tick (bump s))); inversion H; subst; clear H; [right; eauto|left].
    split; [reflexivity|]. simpl.
    rewrite find_update_rows_of by (intros; assumption). rewrite F. reflexivity.
  - unfold insert_user_progress, store in H.
    destruct (fault (tick (bump s))); [inversion H; subst; right; eauto|]. simpl in H.
    apply find_none_existsb in F as F'. rewrite F' in H.
    inversion H; subst; clear H. left. split; [reflexivity|]. simpl.
    apply find_app_last; [exact F|].
    unfold up_of, is_pair; simpl. rewrite !Z.eqb_refl. reflexivity.
Qed.

Lemma recompute_plan_date u m now s p c dt :
  recompute_plan u m now s = Ok (Some (p, c, dt)) ->
  exists cur, find (up_of u m) (user_progress s) = Some cur /\
    dt = if c && negb (up_completed cur) then Some now else completion_date cur.
Proof.
  unfold recompute_plan. intros H.
  destruct (find _ (modules s)); [|discriminate].
  destruct (parse_doc _); [|discriminate].
  destruct (_ =? 0); [discriminate|].
  destruct (find (up_of u m) (user_progress s)) as [cur|]; [|discriminate].
  inversion H; subst. eauto.
Qed.

Lemma touch_flag_view u m now s r s1 :
  touch_module_progress fault u m now s = (r, s1) -> flag_view u m s1 = flag_view u m s.
Proof.
  intros H. unfold flag_view.
  destruct (touch_module_progress_row u m now s r s1 H) as [[_ ->]|[e [_ ->]]];
    [|reflexivity].
  destruct (find (up_of u m) (user_progress s)); reflexivity.
Qed.

Lemma flag_view_same u m now s x :
  flag_view u m x = flag_view u m s ->
  forall r', find (up_of u m) (user_progress x) = Some r' ->
  completion_date r' = if up_completed r' && negb (fst (flag_view u m s)) then Some now
                       else snd (flag_view u m s).
Proof.
  intros Hv r' Hf. rewrite <- Hv. unfold flag_view. rewrite Hf. simpl.
  rewrite andb_negb_r. reflexivity.
Qed.

(** the recomputation writes [completion_date] per the transition rule *)
Lemma updateModuleCompletionStatus_date u m now s s2 r s3 :
  flag_view u m s2 = flag_view u m s ->
  updateModuleCompletionStatus fault u m now s2 = (r, s3) ->
  forall r', find (up_of u m) (user_progress s3) = Some r' ->
  completion_date r' = if up_completed r' && negb (fst (flag_view u m s)) then Some now
                       else snd (flag_view u m s).
Proof.
  intros Hv H.
  pose proof (updateModuleCompletionStatus_state u m now s2) as Hst. rewrite H in Hst.
  simpl in Hst.
  destruct (updateModuleCompletionStatus_body fault u m now s2) as [rb sb] eqn:Eb.
  simpl in Hst. subst sb.
  destruct (updateModuleCompletionStatus_body_spec u m now s2 rb s3 Eb)
    as [_ [_ [[_ [w [Hw Hu]]] | [e [_ Hu]]]]];
    [|apply flag_view_same; unfold flag_view in *; rewrite Hu; exact Hv].
  destruct w as [[[p c] dt]|];
    [|apply flag_view_same; unfold flag_view in *; rewrite Hu; exact Hv].
  destruct (recompute_plan_date u m now s2 p c dt Hw) as [cur [Fc Hdt]].
  intros r' Hf. simpl in Hu. rewrite Hu, find_update_rows_of in Hf by (intros; assumption).
  rewrite Fc in Hf. simpl in Hf. inversion Hf; subst r'; clear Hf. simpl.
  unfold flag_view at 1 in Hv. rewrite Fc in Hv. rewrite <- Hv. exact Hdt.
Qed.

End Reconciler.

(** ** Certificates *)

Lemma existsb_orb_false {X} (f g : X -> bool) l :
  existsb (fun x => f x || g x) l = false -> existsb f l = false.
Proof.
  induction l as [|x l IH]; simpl; [reflexivity|].
  intro H. apply orb_false_iff in H as [H1 H2].
  apply orb_false_iff in H1 as [H1 _]. rewrite H1, (IH H2). reflexivity.
Qed.

Lemma existsb_false_filter {X} (f : X -> bool) l : existsb f l = false -> filter f l = [].
Proof.
  induction l as [|x l IH]; simpl; [reflexivity|].
  intro H. apply orb_false_iff in H as [H1 H2]. rewrite H1. exact (IH H2).
Qed.

Lemma is_pair_refl u m : is_pair u m u m = true.
Proof. unfold is_pair. rewrite !Z.eqb_refl. reflexivity. Qed.

Lemma existsb_pair_last u m (g : Certificate -> bool) cs c :
  cert_user c = u -> cert_module c = m ->
  existsb (fun x => is_pair u m (cert_user x) (cert_module x) || g x) (cs ++ [c]) = true.
Proof.
  intros Hu Hm. rewrite existsb_app. simpl. rewrite Hu, Hm, is_pair_refl.
  rewrite !orb_true_r. reflexivity.
Qed.

Section Certificates.
Variable fault : nat -> bool.

Ltac gen_red H :=
  cbv beta iota zeta delta [generateCertificate catch bind ret store query_completed
    get_module get_user parse_content insert_certificate get_certificate_by_id
    bump set_certificates users modules user_progress lesson_progress certificates
    next_cert_id tick] in H.

(* split a run of [generateCertificate] on every store call and every test *)
Ltac gen_split H :=
  repeat (gen_red H;
    match type of H with
    | context [if fault ?n then _ else _] => destruct (fault n) eqn:?
    | context [match parse_doc ?d with _ => _ end] => destruct (parse_doc d) eqn:?
    | context [match find ?f ?l with _ => _ end] => destruct (find f l) eqn:?
    | context [if Num.lt_Z ?a ?b then _ else _] => destruct (Num.lt_Z a b) eqn:?
    | context [if existsb ?f ?l then _ else _] => destruct (existsb f l) eqn:?
    end);
  gen_red H; inversion H; subst; clear H.

(* rewrite with what an earlier run of the same call established *)
Ltac rw_known H :=
  repeat match goal with
  | E : fault _ = _ |- _ => rewrite E in H
  | E : find _ _ = _ |- _ => rewrite E in H
  | E : parse_doc _ = _ |- _ => rewrite E in H
  | E : Num.lt_Z _ _ = _ |- _ => rewrite E in H
  end.

(* a second run after a successful issue for the same pair *)
Ltac gen_again H :=
  repeat (gen_red H; rw_known H;
    match type of H with
    | context [if fault ?n then _ else _] => destruct (fault n) eqn:?
    | context [if existsb ?f ?l then _ else _] =>
        replace (existsb f l) with true in H
          by (symmetry; apply existsb_pair_last; reflexivity)
    end);
  gen_red H; inversion H; subst; clear H.

(** a call either writes no certificate and answers an error, or appends
    one certificate of the pair, which had none *)
Lemma generateCertificate_cases u m now s r s' :
  generateCertificate fault u m now s = (r, s') ->
  users s' = users s /\ modules s' = modules s /\
  user_progress s' = user_progress s /\ lesson_progress s' = lesson_progress s /\
  ((certificates s' = certificates s /\ exists err, r = Ok (ApiErr err)) \/
   (pair_in u m (certificates s) = false /\
    exists c, certificates s' = certificates s ++ [c] /\ cert_user c = u /\ cert_module c = m)).
Proof.
  destruct s as [us ms ups lps cs nid tk]. intro H. gen_split H; cbn;
  (repeat (split; [reflexivity|]));
  first [ left; split; [reflexivity | eexists; reflexivity]
        | right; split;
          [ match goal with H : existsb _ _ = false |- _ => exact (existsb_orb_false _ _ _ H) end
          | eexists; split; [reflexivity | split; reflexivity] ] ].
Qed.

(** once the pair has a certificate, a call writes none *)
Lemma generateCertificate_existing u m now s r s' :
  pair_in u m (certificates s) = true ->
  generateCertificate fault u m now s = (r, s') ->
  certificates s' = certificates s /\ exists err, r = Ok (ApiErr err).
Proof.
  intros Hp H.
  destruct (generateCertificate_cases u m now s r s' H)
    as [_ [_ [_ [_ [Hk | [Hn _]]]]]]; [exact Hk|congruence].
Qed.

(** the call right after a successful issue meets the UNIQUE constraint,
    unless a store call fails first *)
Lemma generateCertificate_second u m now1 now2 s s1 c r s2 :
  generateCertificate fault u m now1 s = (Ok (ApiOk c), s1) ->
  generateCertificate fault u m now2 s1 = (r, s2) ->
  certificates s2 = certificates s1 /\
  exists e, r = Ok (ApiErr (FailedToGenerateCertificate e)) /\
            (e = ConstraintUnique \/ e = StoreError).
Proof.
  destruct s as [us ms ups lps cs nid tk]. intros H1 H2. revert H2. gen_split H1.
  intro H2. gen_again H2.
  all: split; [reflexivity | eexists; split; [reflexivity | auto]].
Qed.

End Certificates.

(** ** Reset *)

Lemma find_filter_negb {X} (p : X -> bool) l :
  find p (filter (fun x => negb (p x)) l) = None.
Proof.
  induction l as [|x l IH]; simpl; [reflexivity|].
  destruct (p x) eqn:E; simpl; [exact IH|]. rewrite E. exact IH.
Qed.

Lemma filter_filter_negb {X} (p : X -> bool) l :
  filter p (filter (fun x => negb (p x)) l) = [].
Proof.
  induction l as [|x l IH]; simpl; [reflexivity|].
  destruct (p x) eqn:E; simpl; [exact IH|]. rewrite E. exact IH.
Qed.

Lemma resetModuleProgress_ok fault u m s n s' :
  resetModuleProgress fault u m s = (Ok (ApiOk n), s') ->
  user_progress s' = filter (fun r => negb (up_of u m r)) (user_progress s) /\
  lesson_progress s' = filter (fun r => negb (lp_of u m r)) (lesson_progress s) /\
  users s' = users s /\ modules s' = modules s /\
  certificates s' = certificates s /\ next_cert_id s' = next_cert_id s.
Proof.
  unfold resetModuleProgress, catch, bind, ret, delete_user_progress,
    delete_lesson_progress, store. intros H.
  destruct (fault (tick s)); [discriminate|]. simpl in H.
  destruct (fault (S (tick s))); [discriminate|].
  inversion H; subst; clear H. simpl. repeat split; reflexivity.
Qed.

(** ** started_at *)

Section Started.
Variable fault : nat -> bool.

Lemma touch_module_progress_table u m now s s1 :
  touch_module_progress fault u m now s = (Ok tt, s1) ->
  user_progress s1 =
    match find (up_of u m) (user_progress s) with
    | None => user_progress s ++ [mkUP u m 0 false (Some now) None 0 now]
    | Some _ => update_rows_of u m (set_last_accessed now) (user_progress s)
    end.
Proof.
  unfold touch_module_progress, bind, get_user_progress, store. intros H.
  destruct (fault (tick s)); [discriminate|]. simpl in H.
  destruct (find (up_of u m) (user_progress s)) as [cur|] eqn:F.
  - unfold touch_user_progress, store in H.
    destruct (fault (tick (bump s))); inversion H; subst; clear H. reflexivity.
  - unfold insert_user_progress, store in H.
    destruct (fault (tick (bump s))); [discriminate|]. simpl in H.
    apply find_none_existsb in F as F'. rewrite F' in H.
    inversion H; subst; clear H. reflexivity.
Qed.

Lemma updateModuleCompletionStatus_started u m now s r s' :
  updateModuleCompletionStatus fault u m now s = (r, s') ->
  started_view u m s' = started_view u m s.
Proof.
  intros H.
  pose proof (updateModuleCompletionStatus_state fault u m now s) as Hst. rewrite H in Hst.
  simpl in Hst.
  destruct (updateModuleCompletionStatus_body fault u m now s) as [rb sb] eqn:Eb.
  simpl in Hst. subst sb.
  unfold started_view.
  destruct (updateModuleCompletionStatus_body_spec fault u m now s rb s' Eb)
    as [_ [_ [[_ [w [_ Hu]]] | [e [_ Hu]]]]]; rewrite Hu; [|reflexivity].
  destruct w as [[[p c] dt]|]; [|reflexivity]. simpl.
  rewrite find_update_rows_of by (intros; assumption).
  destruct (find (up_of u m) (user_progress s)); reflexivity.
Qed.

Lemma started_view_keeps {A} (op : M A) u m :
  keeps user_progress op ->
  forall s r s', op s = (r, s') -> started_view u m s' = started_view u m s.
Proof. intros K s r s' H. unfold started_view. rewrite (K s r s' H). reflexivity. Qed.

End Started.

(** ** Passing scores *)

Lemma find_map_same {X} (p : X -> bool) (g : X -> X) (l : list X) :
  (forall x, p (g x) = p x) -> find p (map g l) = option_map g (find p l).
Proof.
  intros Hg. induction l as [|a l IH]; simpl; [reflexivity|].
  rewrite Hg. destruct (p a); [reflexivity|exact IH].
Qed.

Lemma total_lessons_with_passing p c : total_lessons (content_with_passing p c) = total_lessons c.
Proof. reflexivity. Qed.

Lemma total_quizzes_with_passing p c : total_quizzes (content_with_passing p c) = total_quizzes c.
Proof.
  unfold total_quizzes, content_with_passing. simpl.
  destruct (quizzes c); simpl; [rewrite length_map|]; reflexivity.
Qed.

Lemma recompute_plan_with_passing p u m now s :
  recompute_plan u m now (db_with_passing p s) = recompute_plan u m now s.
Proof.
  unfold recompute_plan, db_with_passing. simpl.
  rewrite find_map_same by reflexivity.
  destruct (find (fun r => mod_id r =? m) (modules s)) as [mr|]; simpl; [|reflexivity].
  destruct (content mr) as [|c|]; simpl; [reflexivity| |reflexivity].
  rewrite total_lessons_with_passing, total_quizzes_with_passing. reflexivity.
Qed.

End Facts.

(** * The claims *)

Module Claims.
Import Db DatabaseManager Runs Facts.

Section TimeSpent.
Variable fault : nat -> bool.
Variables (u m : Z) (l : string).

Let key := lp_key u m l.
Let step (o : option Z) (c : ProgressData * Z) : option Z :=
  Some (match o with Some t => t + pd_timeSpent (fst c) | None => pd_timeSpent (fst c) end).
Let tval (s : DB) : option Z := option_map time_spent (find key (lesson_progress s)).

Lemma run_updates_time calls s rs s' :
  Forall (fun c => pd_userId (fst c) = u /\ pd_moduleId (fst c) = m /\ pd_lessonId (fst c) = l)
    calls ->
  run_updates fault calls s = (Ok rs, s') ->
  Forall (fun r => exists row, r = ApiOk row) rs ->
  tval s' = fold_left step calls (tval s).
Proof.
  revert s rs. induction calls as [|[d now] rest IH]; intros s rs Hk Hrun Hok; simpl in *.
  - unfold ret in Hrun. inversion Hrun; subst. reflexivity.
  - apply Forall_cons_iff in Hk as [[Hu [Hm Hl]] Hk']. simpl in Hu, Hm, Hl. subst.
    unfold bind at 1 in Hrun.
    destruct (updateLessonProgress fault d now s) as [[r|e] s1] eqn:E1;
      [|discriminate].
    unfold bind in Hrun.
    destruct (run_updates fault rest s1) as [[rs1|e] s2] eqn:E2; [|discriminate].
    unfold ret in Hrun. inversion Hrun; subst; clear Hrun.
    apply Forall_cons_iff in Hok as [[row Hrow] Hok']. subst.
    rewrite (IH s1 rs1 Hk' E2 Hok').
    f_equal.
    destruct (updateLessonProgress_ok_inv fault _ _ _ _ _ E1)
      as [t1 [t2 [Ht1 [Ht2 [Hs' _]]]]].
    destruct (upsert_lesson_row fault _ _ _ _ Ht2) as [r' [Hf [Ht _]]].
    pose proof (lp_touch_module_progress fault _ _ _ _ _ _ Ht1) as Hlp1.
    unfold tval, key. rewrite Hs', Hf. simpl. rewrite Ht, Hlp1.
    destruct (find _ (lesson_progress s)); reflexivity.
Qed.

Lemma fold_step_some calls t :
  fold_left step calls (Some t)
  = Some (t + fold_right Z.add 0 (map (fun c => pd_timeSpent (fst c)) calls)).
Proof.
  revert t. induction calls as [|c rest IH]; intros t; cbn [fold_left fold_right map].
  - rewrite Z.add_0_r. reflexivity.
  - replace (step (Some t) c) with (Some (t + pd_timeSpent (fst c))) by reflexivity.
    rewrite IH. f_equal. lia.
Qed.

(** C1: over a sequence of calls for one (user, module, lesson-or-quiz id)
    that all answer [success: true], starting with no row for that id, the
    stored [time_spent] is the sum of the supplied deltas: the first call
    inserts its delta, every later call adds its delta to the stored value. *)
Theorem updateLessonProgress_time_spent_sum calls s rs s' :
  find key (lesson_progress s) = None ->
  calls <> [] ->
  Forall (fun c => pd_userId (fst c) = u /\ pd_moduleId (fst c) = m /\
                   pd_lessonId (fst c) = l /\ 0 < pd_timeSpent (fst c)) calls ->
  run_updates fault calls s = (Ok rs, s') ->
  Forall (fun r => exists row, r = ApiOk row) rs ->
  exists row, find (lp_key u m l) (lesson_progress s') = Some row /\
    time_spent row = fold_right Z.add 0 (map (fun c => pd_timeSpent (fst c)) calls).
Proof.
  intros Hnone Hne Hk Hrun Hok.
  assert (Hk' : Forall (fun c => pd_userId (fst c) = u /\ pd_moduleId (fst c) = m /\
                                 pd_lessonId (fst c) = l) calls).
  { eapply Forall_impl; [|exact Hk]. intros c [? [? [? _]]]. auto. }
  pose proof (run_updates_time calls s rs s' Hk' Hrun Hok) as Ht.
  unfold tval in Ht. fold key in Hnone. rewrite Hnone in Ht. simpl in Ht.
  destruct calls as [|c rest]; [congruence|]. cbn [fold_left] in Ht.
  replace (step None c) with (Some (pd_timeSpent (fst c))) in Ht by reflexivity.
  rewrite fold_step_some in Ht.
  destruct (find key (lesson_progress s')) as [row|] eqn:F; [|discriminate].
  exists row. split; [exact F|]. simpl in Ht. inversion Ht as [Heq]. rewrite Heq. reflexivity.
Qed.

End TimeSpent.

Lemma updateLessonProgress_time_spent_sum_witness :
  exists row,
    find (lp_key 1 1 "lesson-1"%string)
      (lesson_progress (snd (run_updates no_fault calls_lesson_1 db_40_lessons))) = Some row /\
    time_spent row = fold_right Z.add 0 (map (fun c => pd_timeSpent (fst c)) calls_lesson_1).
Proof.
  apply (updateLessonProgress_time_spent_sum no_fault 1 1 "lesson-1"%string calls_lesson_1
           db_40_lessons (results_of (run_updates no_fault calls_lesson_1 db_40_lessons) [])
           (snd (run_updates no_fault calls_lesson_1 db_40_lessons)));
    [vm_compute; reflexivity | discriminate | | vm_compute; reflexivity | ].
  - repeat constructor.
  - vm_compute. repeat constructor; eexists; reflexivity.
Defined.

(** C2 (as stated): the percentage is [round(100 * completed / totalItems)]
    and lies in [0, 100]. False twice: binary64 rounds 23 of 40 items to 57,
    not 58; and with more completed "lesson-%" rows than content items the
    value exceeds 100. *)
Lemma updateModuleCompletionStatus_percentage_counterexample :
  option_map progress_percentage (module_row run_23_of_40) = Some 57 /\
  exact_percentage 23 40 = 58 /\
  option_map progress_percentage (module_row run_2_of_1) = Some 200.
Proof. vm_compute. repeat split; reflexivity. Qed.

(** C2 (amended): after a recomputation that runs to its end for a pair with
    a ModuleProgress row and a module with at least one lesson or quiz, the
    stored [progress_percentage] is [Math.round((completed / totalItems) * 100)]
    in binary64, where [completed] counts the completed "lesson-%" rows plus
    the completed, scored "quiz-%" rows of the pair; it lies in [0, 100]
    whenever [completed <= totalItems] (item counts below 2^52); and a second
    recomputation with no new lesson rows leaves the ModuleProgress table
    unchanged. *)
Theorem updateModuleCompletionStatus_percentage fault u m now s s' mr pc cur :
  find (fun r => mod_id r =? m) (modules s) = Some mr ->
  parse_doc (content mr) = Ok pc ->
  0 < total_lessons pc + total_quizzes pc ->
  find (up_of u m) (user_progress s) = Some cur ->
  updateModuleCompletionStatus_body fault u m now s = (Ok tt, s') ->
  let completed := completed_lessons_in u m (lesson_progress s)
                   + completed_quizzes_in u m (lesson_progress s) in
  let totalItems := total_lessons pc + total_quizzes pc in
  exists r',
    find (up_of u m) (user_progress s') = Some r' /\
    progress_percentage r' = progress_of completed totalItems /\
    (completed <= totalItems -> Z.log2 totalItems <= 51 ->
     0 <= progress_percentage r' <= 100) /\
    (forall fault' now',
       user_progress (snd (updateModuleCompletionStatus fault' u m now' s'))
       = user_progress s').
Proof.
  intros Hm Hp Ht Hc Hb completed totalItems.
  destruct (updateModuleCompletionStatus_body_spec fault _ _ _ _ _ _ Hb)
    as [Hl [Hmod [[_ [w [Hw Hu]]] | [e [He _]]]]]; [|discriminate].
  pose proof Hw as Hw'.
  unfold recompute_plan in Hw'. rewrite Hm, Hp in Hw'.
  destruct (_ =? 0) eqn:E0; [apply Z.eqb_eq in E0; lia|].
  rewrite Hc in Hw'. inversion Hw'; subst w; clear Hw'.
  simpl in Hu.
  exists (set_aggregate (progress_of completed totalItems)
            ((total_lessons pc <=? completed_lessons_in u m (lesson_progress s)) &&
             (total_quizzes pc <=? completed_quizzes_in u m (lesson_progress s)))
            (if (total_lessons pc <=? completed_lessons_in u m (lesson_progress s)) &&
                (total_quizzes pc <=? completed_quizzes_in u m (lesson_progress s)) &&
                negb (up_completed cur)
             then Some now else completion_date cur) cur).
  split; [|split; [|split]].
  - rewrite Hu, find_update_rows_of by (intros; assumption). rewrite Hc. reflexivity.
  - reflexivity.
  - intros Hle Hlog. simpl. apply NumFacts.percentage_bounds; try lia.
    unfold completed. unfold completed_lessons_in, completed_quizzes_in. lia.
  - intros fault' now'.
    rewrite updateModuleCompletionStatus_state.
    destruct (updateModuleCompletionStatus_body fault' u m now' s') as [r2 s2] eqn:E2.
    destruct (updateModuleCompletionStatus_body_spec fault' _ _ _ _ _ _ E2)
      as [_ [_ [[_ [w2 [Hw2 Hu2]]] | [_ [_ Hu2]]]]]; simpl; [|exact Hu2].
    destruct (recompute_plan_stable u m now now' s s' _ Hw Hmod Hl Hu) as [w3 [Hw3 Happ]].
    rewrite Hw3 in Hw2. inversion Hw2; subst w3. rewrite Hu2. exact Happ.
Qed.

Lemma updateModuleCompletionStatus_percentage_witness :
  exists r',
    find (up_of 1 1) (user_progress
      (snd (updateModuleCompletionStatus_body no_fault 1 1 5 db_40_one_call))) = Some r' /\
    progress_percentage r' = progress_of 1 40 /\
    (1 <= 40 -> Z.log2 40 <= 51 -> 0 <= progress_percentage r' <= 100) /\
    (forall fault' now',
       user_progress (snd (updateModuleCompletionStatus fault' 1 1 now'
         (snd (updateModuleCompletionStatus_body no_fault 1 1 5 db_40_one_call))))
       = user_progress (snd (updateModuleCompletionStatus_body no_fault 1 1 5 db_40_one_call))).
Proof.
  apply (updateModuleCompletionStatus_percentage no_fault 1 1 5 db_40_one_call
           (snd (updateModuleCompletionStatus_body no_fault 1 1 5 db_40_one_call))
           module_40 content_40
           (mkUP 1 1 3 false (Some 1) None 0 1));
    vm_compute; reflexivity.
Defined.

Section CompletionDate.
Variable fault : nat -> bool.

(** C3 (amended): over one [updateLessonProgress] call, the pair's
    [completion_date] becomes the call's time exactly when the stored
    [completed] flag goes from false (or no row) to true, and is left as it
    was otherwise; in particular it is never cleared. *)
Theorem updateLessonProgress_completion_date d now s r s' :
  updateLessonProgress fault d now s = (r, s') ->
  forall r', find (up_of (pd_userId d) (pd_moduleId d)) (user_progress s') = Some r' ->
  completion_date r' =
    if up_completed r' && negb (fst (flag_view (pd_userId d) (pd_moduleId d) s))
    then Some now
    else snd (flag_view (pd_userId d) (pd_moduleId d) s).
Proof.
  unfold updateLessonProgress, catch, bind. intros H.
  destruct (touch_module_progress fault (pd_userId d) (pd_moduleId d) now s) as [r1 s1] eqn:E1.
  pose proof (touch_flag_view fault _ _ now s r1 s1 E1) as V1.
  destruct r1 as [[]|e1];
    [|inversion H; subst; apply flag_view_same; exact V1].
  destruct (upsert_lesson_progress fault d now s1) as [r2 s2] eqn:E2.
  assert (V2 : flag_view (pd_userId d) (pd_moduleId d) s2
               = flag_view (pd_userId d) (pd_moduleId d) s).
  { unfold flag_view. rewrite (up_upsert_lesson_progress fault d now s1 r2 s2 E2).
    exact V1. }
  destruct r2 as [[]|e2];
    [|inversion H; subst; apply flag_view_same; exact V2].
  destruct (updateModuleCompletionStatus fault (pd_userId d) (pd_moduleId d) now s2)
    as [r3 s3] eqn:E3.
  pose proof (updateModuleCompletionStatus_date fault _ _ now s s2 r3 s3 V2 E3) as P3.
  destruct r3 as [[]|e3]; [|inversion H; subst; exact P3].
  unfold get_lesson_progress, store in H.
  destruct (fault (tick s3)); [inversion H; subst; exact P3|].
  simpl in H. destruct (find _ _); unfold ret in H; inversion H; subst; exact P3.
Qed.

End CompletionDate.

Lemma updateLessonProgress_completion_date_witness :
  exists r',
    find (up_of 1 1) (user_progress
      (snd (updateLessonProgress no_fault (rec "lesson-1" true 60 None) 7 db_1_lesson))) = Some r' /\
    completion_date r' =
      if up_completed r' && negb (fst (flag_view 1 1 db_1_lesson)) then Some 7
      else snd (flag_view 1 1 db_1_lesson).
Proof.
  eexists. split; [vm_compute; reflexivity|].
  apply (updateLessonProgress_completion_date no_fault (rec "lesson-1" true 60 None) 7
           db_1_lesson
           (fst (updateLessonProgress no_fault (rec "lesson-1" true 60 None) 7 db_1_lesson))
           (snd (updateLessonProgress no_fault (rec "lesson-1" true 60 None) 7 db_1_lesson)));
    vm_compute; reflexivity.
Defined.

(** C3 (as stated): [completed] never reverts and [completion_date] is
    written once. A lesson re-recorded as not completed turns the module
    back to not completed, and completing it again overwrites the date. *)
Lemma updateLessonProgress_completion_counterexample :
  option_map up_completed (module_row (after (firstn 1 calls_revert) db_1_lesson)) = Some true /\
  option_map up_completed (module_row (after (firstn 2 calls_revert) db_1_lesson)) = Some false /\
  option_map completion_date (module_row (after (firstn 1 calls_revert) db_1_lesson))
    = Some (Some 10) /\
  option_map completion_date (module_row (after calls_revert db_1_lesson)) = Some (Some 30).
Proof. vm_compute. repeat split; reflexivity. Qed.

(** C5 (code bug): a lesson completed again keeps its first [completed_at].
    The update writes the current time whenever the flag is true, so the
    second completion (at 200) replaces the first one (at 100). *)
Lemma updateLessonProgress_completed_at_overwritten :
  option_map completed_at (lesson_row "lesson-1" (after (firstn 1 calls_recomplete) db_1_lesson))
    = Some (Some 100) /\
  option_map completed_at (lesson_row "lesson-1" (after calls_recomplete db_1_lesson))
    = Some (Some 200).
Proof. vm_compute. split; reflexivity. Qed.

(** C4 (code bug): the 80% gate counts every completed row of the pair,
    quiz rows included. With 3 of 5 lessons (60%) and the quiz completed,
    4 rows reach [5 * 0.8 = 4] and the certificate is issued. *)
Lemma generateCertificate_counts_quiz_rows :
  completed_lessons_in 1 1 (lesson_progress (after calls_3_of_5_and_quiz db_5_1)) = 3 /\
  Num.lt_Z 3 (Num.fmul (Num.of_Z 5) Num.lit_0_8) = true /\
  match fst (generateCertificate no_fault 1 1 500 (after calls_3_of_5_and_quiz db_5_1)) with
  | Ok (ApiOk c) => cert_user c = 1 /\ cert_module c = 1
  | _ => False
  end.
Proof. vm_compute. repeat split; reflexivity. Qed.

(** C6: after a successful issue for a pair, the pair has exactly one
    certificate row; the next call for the pair writes no row and fails with
    the UNIQUE constraint (or an earlier store error); and any later call,
    while the row is there, writes no row and answers an error. It never
    returns the existing certificate. *)
Theorem generateCertificate_no_second_row fault u m now1 now2 s s1 c r s2 :
  generateCertificate fault u m now1 s = (Ok (ApiOk c), s1) ->
  generateCertificate fault u m now2 s1 = (r, s2) ->
  List.length (certificates_of u m (certificates s1)) = 1%nat /\
  certificates s2 = certificates s1 /\
  (exists e, r = Ok (ApiErr (FailedToGenerateCertificate e)) /\
             (e = ConstraintUnique \/ e = StoreError)) /\
  (forall now s3 r' s4,
     pair_in u m (certificates s3) = true ->
     generateCertificate fault u m now s3 = (r', s4) ->
     certificates s4 = certificates s3 /\ exists err, r' = Ok (ApiErr err)).
Proof.
  intros H1 H2.
  destruct (generateCertificate_second fault u m now1 now2 s s1 c r s2 H1 H2) as [Hc2 He].
  split; [|split; [exact Hc2|split; [exact He|]]].
  - destruct (generateCertificate_cases fault u m now1 s _ _ H1)
      as [_ [_ [_ [_ [[_ [err Herr]] | [Hn [c' [Hc [Hu Hm]]]]]]]]]; [discriminate|].
    unfold certificates_of. rewrite Hc, filter_app.
    unfold pair_in in Hn. rewrite (existsb_false_filter _ _ Hn). simpl.
    rewrite Hu, Hm, is_pair_refl. reflexivity.
  - intros now s3 r' s4. apply generateCertificate_existing.
Qed.

Lemma generateCertificate_no_second_row_witness :
  List.length (certificates_of 1 1 (certificates (snd first_issue))) = 1%nat /\
  certificates (snd second_issue) = certificates (snd first_issue) /\
  (exists e, fst second_issue = Ok (ApiErr (FailedToGenerateCertificate e)) /\
             (e = ConstraintUnique \/ e = StoreError)) /\
  (certificates (snd (generateCertificate no_fault 1 1 700 (snd second_issue)))
     = certificates (snd second_issue) /\
   exists err, fst (generateCertificate no_fault 1 1 700 (snd second_issue)) = Ok (ApiErr err)).
Proof.
  destruct (generateCertificate_no_second_row no_fault 1 1 500 600 db_done_1 (snd first_issue)
              (cert_of (fst first_issue)) (fst second_issue) (snd second_issue))
    as [A [B [C D]]]; [vm_compute; reflexivity | vm_compute; reflexivity |].
  split; [exact A|]. split; [exact B|]. split; [exact C|].
  apply (D 700 (snd second_issue)); vm_compute; reflexivity.
Defined.

(** C7: a reset that answers [success: true] deletes exactly the pair's
    ModuleProgress and LessonProgress rows and changes no other table;
    afterwards [getModuleProgress] answers no module row and no lesson
    rows, and [verifyCertificate] finds by its code every certificate that
    was there before (unless its store call fails). *)
Theorem resetModuleProgress_frame fault u m s n s' :
  resetModuleProgress fault u m s = (Ok (ApiOk n), s') ->
  user_progress s' = filter (fun r => negb (up_of u m r)) (user_progress s) /\
  lesson_progress s' = filter (fun r => negb (lp_of u m r)) (lesson_progress s) /\
  users s' = users s /\ modules s' = modules s /\
  certificates s' = certificates s /\ next_cert_id s' = next_cert_id s /\
  (forall fault', fst (getModuleProgress fault' u m s') = Ok (None, [])) /\
  (forall fault' code,
     fst (verifyCertificate fault' code s') =
       if fault' (tick s') then Ok None
       else Ok (find (fun c => String.eqb code (certificate_code c)) (certificates s))).
Proof.
  intros H. destruct (resetModuleProgress_ok fault u m s n s' H) as [Hu [Hl [Hus [Hm [Hc Hn]]]]].
  repeat (split; [assumption|]). split.
  - intros fault'. unfold getModuleProgress, catch, bind, ret, get_user_progress,
      query_lesson_progress, store.
    destruct (fault' (tick s')); [reflexivity|]. simpl.
    destruct (fault' (S (tick s'))); [reflexivity|]. simpl.
    rewrite Hu, Hl, find_filter_negb, filter_filter_negb. reflexivity.
  - intros fault' code. unfold verifyCertificate, catch, get_certificate_by_code, store.
    destruct (fault' (tick s')); [reflexivity|]. simpl. rewrite Hc. reflexivity.
Qed.

Lemma resetModuleProgress_frame_witness :
  let s := snd first_issue in
  let s' := snd (resetModuleProgress no_fault 1 1 s) in
  user_progress s' = filter (fun r => negb (up_of 1 1 r)) (user_progress s) /\
  lesson_progress s' = filter (fun r => negb (lp_of 1 1 r)) (lesson_progress s) /\
  users s' = users s /\ modules s' = modules s /\
  certificates s' = certificates s /\ next_cert_id s' = next_cert_id s /\
  (forall fault', fst (getModuleProgress fault' 1 1 s') = Ok (None, [])) /\
  (forall fault' code,
     fst (verifyCertificate fault' code s') =
       if fault' (tick s') then Ok None
       else Ok (find (fun c => String.eqb code (certificate_code c)) (certificates s))).
Proof.
  apply (resetModuleProgress_frame no_fault 1 1 (snd first_issue) 1
           (snd (resetModuleProgress no_fault 1 1 (snd first_issue)))).
  vm_compute. reflexivity.
Defined.

(** C8: the touch step creates the pair's row with [started_at] and
    [last_accessed] now, [completed] false and [progress_percentage] 0 when
    there is none, and otherwise sets only [last_accessed]; over the whole
    call, the [started_at] of an existing row is kept, and a row created by
    the call has [started_at] now. *)
Theorem updateLessonProgress_module_row fault d now s r s' :
  updateLessonProgress fault d now s = (r, s') ->
  (forall s1,
     touch_module_progress fault (pd_userId d) (pd_moduleId d) now s = (Ok tt, s1) ->
     user_progress s1 =
       match find (up_of (pd_userId d) (pd_moduleId d)) (user_progress s) with
       | None => user_progress s ++
                   [mkUP (pd_userId d) (pd_moduleId d) 0 false (Some now) None 0 now]
       | Some _ => update_rows_of (pd_userId d) (pd_moduleId d) (set_last_accessed now)
                     (user_progress s)
       end) /\
  (forall r',
     find (up_of (pd_userId d) (pd_moduleId d)) (user_progress s') = Some r' ->
     started_at r' =
       match find (up_of (pd_userId d) (pd_moduleId d)) (user_progress s) with
       | Some cur => started_at cur
       | None => Some now
       end).
Proof.
  intros H. split; [intros s1; apply touch_module_progress_table|].
  unfold updateLessonProgress, catch, bind in H.
  set (u := pd_userId d) in *. set (m := pd_moduleId d) in *.
  set (expected := match find (up_of u m) (user_progress s) with
                   | Some cur => started_at cur | None => Some now end).
  assert (Hs : forall x, started_view u m s = Some x -> x = expected).
  { unfold started_view, expected. intros x.
    destruct (find (up_of u m) (user_progress s)); simpl; congruence. }
  assert (Hv : started_view u m s' = started_view u m s \/
               started_view u m s' = Some expected).
  { destruct (touch_module_progress fault u m now s) as [r1 s1] eqn:E1.
    assert (V1 : started_view u m s1 = started_view u m s \/
                 started_view u m s1 = Some expected).
    { destruct (touch_module_progress_row fault u m now s r1 s1 E1)
        as [[_ Hf]|[e [_ Hu]]]; unfold started_view; [right|left].
      - rewrite Hf. unfold expected. destruct (find _ (user_progress s)); reflexivity.
      - rewrite Hu. reflexivity. }
    destruct r1 as [[]|e1]; [|inversion H; subst; exact V1].
    destruct (upsert_lesson_progress fault d now s1) as [r2 s2] eqn:E2.
    rewrite <- (started_view_keeps _ u m (up_upsert_lesson_progress fault d now) _ _ _ E2)
      in V1.
    destruct r2 as [[]|e2]; [|inversion H; subst; exact V1].
    destruct (updateModuleCompletionStatus fault u m now s2) as [r3 s3] eqn:E3.
    rewrite <- (updateModuleCompletionStatus_started fault u m now s2 r3 s3 E3) in V1.
    destruct r3 as [[]|e3]; [|inversion H; subst; exact V1].
    destruct (get_lesson_progress fault u m (pd_lessonId d) s3) as [r4 s4] eqn:E4.
    rewrite <- (started_view_keeps _ u m (up_get_lesson_progress fault u m (pd_lessonId d))
                  _ _ _ E4) in V1.
    destruct r4 as [o|e4]; [|inversion H; subst; exact V1].
    destruct o; unfold ret in H; inversion H; subst; exact V1. }
  intros r' Hf.
  assert (Hr : started_view u m s' = Some (started_at r'))
    by (unfold started_view; rewrite Hf; reflexivity).
  destruct Hv as [G|G]; rewrite Hr in G; [symmetry in G; apply Hs in G; exact G|congruence].
Qed.

Lemma updateLessonProgress_module_row_witness :
  let d := rec "lesson-2" true 60 None in
  user_progress (snd (touch_module_progress no_fault 1 1 9 db_done_1)) =
    update_rows_of 1 1 (set_last_accessed 9) (user_progress db_done_1) /\
  exists r',
    find (up_of 1 1) (user_progress (snd (updateLessonProgress no_fault d 9 db_done_1)))
      = Some r' /\
    started_at r' = Some 1.
Proof.
  destruct (updateLessonProgress_module_row no_fault (rec "lesson-2" true 60 None) 9 db_done_1
              (fst (updateLessonProgress no_fault (rec "lesson-2" true 60 None) 9 db_done_1))
              (snd (updateLessonProgress no_fault (rec "lesson-2" true 60 None) 9 db_done_1)))
    as [A B]; [vm_compute; reflexivity|].
  split; [apply A; vm_compute; reflexivity|].
  eexists. split; [vm_compute; reflexivity|].
  rewrite B by (vm_compute; reflexivity). vm_compute. reflexivity.
Defined.

(** C9: when steps 1 and 2 of a call succeed and the recomputation fails,
    the failure is swallowed: the call still answers [success: true] with
    the upserted lesson row, and the ModuleProgress table stays as step 1
    left it (aggregate fields not recomputed). *)
Theorem updateLessonProgress_recompute_error fault d now s s1 s2 e s3 :
  touch_module_progress fault (pd_userId d) (pd_moduleId d) now s = (Ok tt, s1) ->
  upsert_lesson_progress fault d now s1 = (Ok tt, s2) ->
  updateModuleCompletionStatus_body fault (pd_userId d) (pd_moduleId d) now s2 = (Err e, s3) ->
  fault (tick s3) = false ->
  exists row,
    updateLessonProgress fault d now s = (Ok (ApiOk row), bump s3) /\
    find (lp_key (pd_userId d) (pd_moduleId d) (pd_lessonId d)) (lesson_progress s2) = Some row /\
    user_progress (bump s3) = user_progress s2.
Proof.
  intros E1 E2 E3 Ht.
  destruct (updateModuleCompletionStatus_body_spec fault _ _ _ _ _ _ E3)
    as [Hl [_ [[He _] | [e' [_ Hu]]]]]; [discriminate|].
  destruct (upsert_lesson_row fault d now s1 s2 E2) as [row [Hf _]].
  exists row. split; [|split; [exact Hf | exact Hu]].
  unfold updateLessonProgress, catch, bind. rewrite E1, E2.
  unfold updateModuleCompletionStatus, catch. rewrite E3.
  unfold ret, get_lesson_progress, store. rewrite Ht. simpl. rewrite Hl, Hf. reflexivity.
Qed.

Lemma updateLessonProgress_recompute_error_witness :
  let d := rec "lesson-1" true 60 None in
  let s1 := snd (touch_module_progress fault_at_4 1 1 7 db_1_lesson) in
  let s2 := snd (upsert_lesson_progress fault_at_4 d 7 s1) in
  let s3 := snd (updateModuleCompletionStatus_body fault_at_4 1 1 7 s2) in
  exists row,
    updateLessonProgress fault_at_4 d 7 db_1_lesson = (Ok (ApiOk row), bump s3) /\
    find (lp_key 1 1 "lesson-1") (lesson_progress s2) = Some row /\
    user_progress (bump s3) = user_progress s2.
Proof.
  apply (updateLessonProgress_recompute_error fault_at_4 (rec "lesson-1" true 60 None) 7
           db_1_lesson
           (snd (touch_module_progress fault_at_4 1 1 7 db_1_lesson))
           (snd (upsert_lesson_progress fault_at_4 (rec "lesson-1" true 60 None) 7
              (snd (touch_module_progress fault_at_4 1 1 7 db_1_lesson))))
           StoreError
           (snd (updateModuleCompletionStatus_body fault_at_4 1 1 7
              (snd (upsert_lesson_progress fault_at_4 (rec "lesson-1" true 60 None) 7
                 (snd (touch_module_progress fault_at_4 1 1 7 db_1_lesson))))))).
  all: vm_compute; reflexivity.
Defined.

(** C10: a module of one lesson and one quiz passed at 70: the lesson
    completed and the quiz completed with score 10 make the module
    completed at 100%; and the planned write of every recomputation is the
    same whatever passing score the module's quizzes carry. *)
Theorem updateModuleCompletionStatus_ignores_passingScore :
  (option_map quiz_score (lesson_row "quiz-1" (after calls_low_quiz db_lesson_quiz))
     = Some (Some 10) /\
   10 < passingScore quiz_1 /\
   option_map up_completed (module_row (after calls_low_quiz db_lesson_quiz)) = Some true /\
   option_map progress_percentage (module_row (after calls_low_quiz db_lesson_quiz))
     = Some 100) /\
  (forall p u m now s,
     recompute_plan u m now (db_with_passing p s) = recompute_plan u m now s).
Proof.
  split; [vm_compute; repeat split; reflexivity|].
  exact recompute_plan_with_passing.
Qed.

End Claims.

(** * The double model against the primitive binary64 floats *)

Module Binary64.

(** [(c / t) * 100] of the model is the binary64 value for every
    [0 <= c <= t <= 120] *)
Lemma pct_model_agrees : Num.pct_agrees = true.
Proof. vm_compute. reflexivity. Qed.

(** [n * 0.8] of the model is the binary64 value for every [n <= 2000] *)
Lemma threshold_model_agrees : Num.threshold_agrees = true.
Proof. vm_compute. reflexivity. Qed.

End Binary64.
